(** * Course filter of manaba-rush-enhanced: [src/methods/filterCourses.ts]

    A shallow embedding of the module-code codec, the course-info parser,
    the layout detection and the show/hide pass of [applyFilter], followed
    by the properties of the specification that concern them.

    JavaScript strings are sequences of UTF-16 code units; regular
    expressions are matched by a backtracking matcher written with
    continuations, the way ECMA-262 defines pattern semantics; the DOM is
    reduced to the fields the code reads and writes. *)

From Stdlib Require Import List Arith NArith Bool Ascii String Lia.
Import ListNotations.

Local Open Scope N_scope.
Local Open Scope list_scope.

(* ------------------------------------------------------------------ *)
(** ** JavaScript strings *)

Module JS.

(** One UTF-16 code unit. *)
Definition unit16 := N.

(** A JavaScript string value. *)
Definition jsstring := list unit16.

Definition byteN (a : ascii) : N := N_of_ascii a.

(** The UTF-16 code units of one code point. *)
Definition units_of_codepoint (cp : N) : jsstring :=
  if cp <? 65536 then [cp]
  else let v := cp - 65536 in
       [55296 + N.shiftr v 10; 56320 + N.land v 1023].

Definition cont (b : N) : N := N.land b 63.

(** Decoding of the UTF-8 bytes of a literal of this file into the code
    units the same literal has in the TypeScript source. *)
Fixpoint utf16_of_bytes (bs : list N) : jsstring :=
  match bs with
  | [] => []
  | b0 :: r0 =>
    if b0 <? 128 then b0 :: utf16_of_bytes r0
    else if b0 <? 224 then
      match r0 with
      | b1 :: r1 =>
          units_of_codepoint (N.shiftl (N.land b0 31) 6 + cont b1)
            ++ utf16_of_bytes r1
      | [] => [65533]
      end
    else if b0 <? 240 then
      match r0 with
      | b1 :: b2 :: r2 =>
          units_of_codepoint
            (N.shiftl (N.land b0 15) 12 + N.shiftl (cont b1) 6 + cont b2)
            ++ utf16_of_bytes r2
      | _ => [65533]
      end
    else
      match r0 with
      | b1 :: b2 :: b3 :: r3 =>
          units_of_codepoint
            (N.shiftl (N.land b0 7) 18 + N.shiftl (cont b1) 12
             + N.shiftl (cont b2) 6 + cont b3)
            ++ utf16_of_bytes r3
      | _ => [65533]
      end
  end.

Definition js (s : string) : jsstring :=
  utf16_of_bytes (map byteN (list_ascii_of_string s)).

(** [===] on strings. *)
Fixpoint streq (a b : jsstring) : bool :=
  match a, b with
  | [], [] => true
  | x :: a', y :: b' => (x =? y) && streq a' b'
  | _, _ => false
  end.

(** [s.startsWith(p)], used by [includes]. *)
Fixpoint startsWith (p s : jsstring) : bool :=
  match p, s with
  | [], _ => true
  | x :: p', y :: s' => (x =? y) && startsWith p' s'
  | _ :: _, [] => false
  end.

(** [String.prototype.includes]: [needle] occurs in [hay] as a substring. *)
Fixpoint includes (hay needle : jsstring) : bool :=
  startsWith needle hay ||
  match hay with
  | [] => false
  | _ :: hay' => includes hay' needle
  end.

(** [s.split(sep)] for a separator made of the single code unit [sep]:
    the pieces between the occurrences, never an empty array. *)
Fixpoint split1 (sep : unit16) (s : jsstring) : list jsstring :=
  match s with
  | [] => [[]]
  | c :: s' =>
      if c =? sep then [] :: split1 sep s'
      else match split1 sep s' with
           | p :: ps => (c :: p) :: ps
           | [] => [[c]]
           end
  end.

(** [s.split("")]: one string per code unit. *)
Definition splitUnits (s : jsstring) : list jsstring :=
  map (fun c => [c]) s.

(** [toLowerCase] / [toUpperCase] on the Basic Latin letters.  The source
    applies [toLowerCase] only to letters matched by [[abc]] and
    [toUpperCase] only to a segment letter; other code units are left as
    they are. *)
Definition lowerUnit (c : unit16) : unit16 :=
  if (65 <=? c) && (c <=? 90) then c + 32 else c.

Definition upperUnit (c : unit16) : unit16 :=
  if (97 <=? c) && (c <=? 122) then c - 32 else c.

Definition toLowerCase (s : jsstring) : jsstring := map lowerUnit s.

(** Array index access [a[i]]: [None] stands for [undefined]. *)
Definition index {A} (a : list A) (i : nat) : option A := nth_error a i.

(** What a call produces: a value, or an abrupt completion by [throw]. *)
Inductive thrown :=
| ThrownString (msg : jsstring)   (* [throw "..."] *)
| TypeError.                      (* property access on [undefined] *)

Inductive completion (A : Type) :=
| Normal (v : A)
| Throw (e : thrown).

Arguments Normal {A} v.
Arguments Throw {A} e.

End JS.

Import JS.

(* ------------------------------------------------------------------ *)
(** ** Regular expressions *)

Module RegExp.

(** The patterns of the source use: the assertions [^] and [$], classes
    matching one code unit, a greedy [+] over such a class, sequence,
    alternation and numbered capture groups. *)
Inductive regex :=
| Eps
| Bos
| Eos
| Cls (p : unit16 -> bool)
| Plus (p : unit16 -> bool)
| Cat (r1 r2 : regex)
| Alt (r1 r2 : regex)
| Grp (n : nat) (r : regex).

(** Matcher state: the input before the current position (latest code
    unit first), the input from it on, and the captures made so far
    (latest first). *)
Record mstate := MState {
  before : jsstring;
  rest : jsstring;
  caps : list (nat * jsstring)
}.

Section Matcher.

Context {R : Type}.

(** Greedy [p*] and then the continuation [k]; on failure of [k] one
    code unit is given back at a time. *)
Fixpoint star (p : unit16 -> bool) (k : mstate -> option R)
    (bef rst : jsstring) (cs : list (nat * jsstring)) : option R :=
  match rst with
  | c :: rst' =>
      if p c then
        match star p k (c :: bef) rst' cs with
        | Some r => Some r
        | None => k (MState bef rst cs)
        end
      else k (MState bef rst cs)
  | [] => k (MState bef rst cs)
  end.

Definition plus (p : unit16 -> bool) (k : mstate -> option R)
    (st : mstate) : option R :=
  match rest st with
  | c :: rst' =>
      if p c then star p k (c :: before st) rst' (caps st) else None
  | [] => None
  end.

(** The text consumed between two states of the same run. *)
Definition consumed (st st' : mstate) : jsstring :=
  rev (firstn (List.length (before st') - List.length (before st)) (before st')).

Fixpoint rmatch (r : regex) (k : mstate -> option R) (st : mstate)
    : option R :=
  match r with
  | Eps => k st
  | Bos => match before st with [] => k st | _ :: _ => None end
  | Eos => match rest st with [] => k st | _ :: _ => None end
  | Cls p =>
      match rest st with
      | c :: rst' =>
          if p c then k (MState (c :: before st) rst' (caps st)) else None
      | [] => None
      end
  | Plus p => plus p k st
  | Cat r1 r2 => rmatch r1 (rmatch r2 k) st
  | Alt r1 r2 =>
      match rmatch r1 k st with
      | Some x => Some x
      | None => rmatch r2 k st
      end
  | Grp n r1 =>
      rmatch r1
        (fun st' =>
           k (MState (before st') (rest st')
                     ((n, consumed st st') :: caps st')))
        st
  end.

End Matcher.

(** A match attempt at the current position. *)
Definition attempt (r : regex) (bef rst : jsstring)
    : option (list (nat * jsstring)) :=
  rmatch r (fun st => Some (caps st)) (MState bef rst []).

(** [RegExpBuiltinExec] without the [g] and [y] flags: the first start
    index, from 0 on, at which the pattern matches. *)
Fixpoint exec_from (r : regex) (bef rst : jsstring)
    : option (list (nat * jsstring)) :=
  match attempt r bef rst with
  | Some cs => Some cs
  | None =>
      match rst with
      | [] => None
      | c :: rst' => exec_from r (c :: bef) rst'
      end
  end.

Definition exec (r : regex) (s : jsstring) : option (list (nat * jsstring)) :=
  exec_from r [] s.

(** [r.test(s)] *)
Definition test (r : regex) (s : jsstring) : bool :=
  match exec r s with Some _ => true | None => false end.

(** [s.match(r)] for a pattern without [g]: the result of [exec]. *)
Definition smatch (s : jsstring) (r : regex) := exec r s.

(** Element [n] of a match array, [n >= 1]: [None] is [undefined]. *)
Fixpoint group (n : nat) (cs : list (nat * jsstring)) : option jsstring :=
  match cs with
  | [] => None
  | (m, v) :: cs' => if Nat.eqb m n then Some v else group n cs'
  end.

(** [Canonicalize] of a pattern with the [i] flag and without [u] takes
    the upper-case form of a code unit, except that a code unit of 128 or
    more never becomes one below 128.  Only the Basic Latin letters are
    mapped here.  The members of the classes of the source are Basic Latin
    letters and the ideographs U+6625 and U+79CB, which no other code unit
    has as its upper-case form, so that for these classes membership under
    this function is membership under the full one.  The white-space
    class has no cased member and is the same with and without [i]. *)
Definition canonicalize (c : unit16) : unit16 := upperUnit c.

(** A class given by its members, under the [i] flag. *)
Definition oneOf_i (members : jsstring) (c : unit16) : bool :=
  existsb (fun a => canonicalize a =? canonicalize c) members.

(** A literal word under the [i] flag. *)
Fixpoint lit_i (w : jsstring) : regex :=
  match w with
  | [] => Eps
  | a :: w' => Cat (Cls (oneOf_i [a])) (lit_i w')
  end.

(** LineTerminator: LF, CR, LS, PS. *)
Definition isLineTerminator (c : unit16) : bool :=
  (c =? 10) || (c =? 13) || (c =? 8232) || (c =? 8233).

(** [.] without the [s] flag. *)
Definition dot (c : unit16) : bool := negb (isLineTerminator c).

(** [\s]: WhiteSpace and LineTerminator. *)
Definition isSpace (c : unit16) : bool :=
  (c =? 9) || (c =? 10) || (c =? 11) || (c =? 12) || (c =? 13) || (c =? 32)
  || (c =? 160) || (c =? 5760) || ((8192 <=? c) && (c <=? 8202))
  || (c =? 8232) || (c =? 8233) || (c =? 8239) || (c =? 8287)
  || (c =? 12288) || (c =? 65279).

End RegExp.

Import RegExp.

(* ------------------------------------------------------------------ *)
(** ** The page *)

Module DOM.

(** An element, reduced to what the filter reads and writes. *)
Record HTMLElement := {
  (** [style.display] *)
  style_display : jsstring;
  (** the tokens of [classList], in order *)
  classList : list jsstring;
  (** [children[2].innerText]; [None] when the element has no third child *)
  children2_innerText : option jsstring;
  (** [title] of [querySelector(".courseitemdetail-date span")]; [None]
      when no descendant matches *)
  dateSpan_title : option jsstring
}.

(** The document: the children of the two containers the filter looks
    for, [None] when [querySelector] returns [null]. *)
Record Document := {
  (** [.courselist tbody] *)
  coursesListContainer : option (list HTMLElement);
  (** [.mycourses-body .section] *)
  coursesThumbnailContainer : option (list HTMLElement)
}.

Definition set_display (v : jsstring) (e : HTMLElement) : HTMLElement :=
  {| style_display := v;
     classList := classList e;
     children2_innerText := children2_innerText e;
     dateSpan_title := dateSpan_title e |}.

Definition set_classList (l : list jsstring) (e : HTMLElement) : HTMLElement :=
  {| style_display := style_display e;
     classList := l;
     children2_innerText := children2_innerText e;
     dateSpan_title := dateSpan_title e |}.

(** [DOMTokenList.contains] *)
Definition contains (l : list jsstring) (token : jsstring) : bool :=
  existsb (streq token) l.

(** Replace within an ordered set: the first instance of [item] or
    [replacement] becomes [replacement], all other instances go. *)
Fixpoint set_replace (item replacement : jsstring) (l : list jsstring)
    : list jsstring :=
  match l with
  | [] => []
  | t :: l' =>
      if streq t item || streq t replacement then
        replacement
          :: filter (fun u => negb (streq u item || streq u replacement)) l'
      else t :: set_replace item replacement l'
  end.

(** [DOMTokenList.replace(token, newToken)]: nothing happens when [token]
    is not in the list. *)
Definition replace (token newToken : jsstring) (l : list jsstring)
    : list jsstring :=
  if contains l token then set_replace token newToken l else l.

End DOM.

Import DOM.

(* ------------------------------------------------------------------ *)
(** ** filterCourses.ts *)

Module ParsedModuleCode.
Record t := Build { season : option jsstring; module : option jsstring }.
End ParsedModuleCode.

Module Season.
Record t := Build { spring : bool; autumn : bool }.
End Season.

Module CourseInfo.
Record t := Build { season : Season.t; module : list jsstring }.
End CourseInfo.

(** [parseModuleCode]: the first two pieces of the code split at ["-"].
    The body has no [throw] and none of its operations fails on a string. *)
Definition parseModuleCode (moduleCode : jsstring)
    : completion ParsedModuleCode.t :=
  let season := index (split1 45 moduleCode) 0 in
  let module := index (split1 45 moduleCode) 1 in
  Normal (ParsedModuleCode.Build season module).

(** The option values of [createModuleSelector]. *)
Definition moduleCodes : list jsstring :=
  [ js "all";
    js "spring-a"; js "spring-b"; js "spring-c";
    js "autumn-a"; js "autumn-b"; js "autumn-c" ].

(** The local [viewMode] of [applyFilter]: ["list"] or ["thumbnail"]. *)
Inductive ViewMode := list_view | thumbnail_view.

(** The two patterns of [parseCourseInfoString] and the pattern of the
    shape test of [applyFilter]. *)
Definition courseInfoRegex_ja : regex :=       (* /^([春秋])([abc]+)/i *)
  Cat Bos (Cat (Grp 1 (Cls (oneOf_i (js "春秋"))))
               (Grp 2 (Plus (oneOf_i (js "abc"))))).

Definition courseInfoRegex_en : regex :=       (* /^(Spring|Autumn)\s([abc]+)/i *)
  Cat Bos (Cat (Grp 1 (Alt (lit_i (js "Spring")) (lit_i (js "Autumn"))))
          (Cat (Cls isSpace)
               (Grp 2 (Plus (oneOf_i (js "abc")))))).

Definition shapeRegex : regex :=               (* /^.+\s.+$/ *)
  Cat Bos (Cat (Plus dot) (Cat (Cls isSpace) (Cat (Plus dot) Eos))).

(** The object a successful parse returns, from the two tests on the
    season token and the matched run of segment letters. *)
Definition courseInfoOf (spring autumn : bool) (module : jsstring)
    : CourseInfo.t :=
  CourseInfo.Build (Season.Build spring autumn)
                   (map toLowerCase (splitUnits module)).

(** [parseCourseInfoString], with the module variable [lang] as an
    argument.  [Normal None] is the [undefined] of a call that falls off
    the end of the function. *)
Definition parseCourseInfoString (lang courseInfoString : jsstring)
    : completion (option CourseInfo.t) :=
  if streq lang (js "ja") then
    if test courseInfoRegex_ja courseInfoString then
      match smatch courseInfoString courseInfoRegex_ja with
      | Some m =>
          match group 1 m, group 2 m with
          | Some season, Some module =>
              Normal (Some (courseInfoOf (includes season (js "春"))
                                         (includes season (js "秋"))
                                         module))
          | _, _ => Throw TypeError
          end
      | None => Normal None
      end
    else Normal None
  else if streq lang (js "en") then
    if test courseInfoRegex_en courseInfoString then
      match smatch courseInfoString courseInfoRegex_en with
      | Some m =>
          match group 1 m, group 2 m with
          | Some season, Some module =>
              Normal (Some (courseInfoOf (streq season (js "Spring"))
                                         (streq season (js "Autumn"))
                                         module))
          | _, _ => Throw TypeError
          end
      | None => Normal None
      end
    else Normal None
  else Throw (ThrownString (js "invalid lang")).

(** The property names every object inherits from [Object.prototype];
    their values are functions or objects. *)
Definition objectPrototypeKeys : list jsstring :=
  [ js "constructor"; js "hasOwnProperty"; js "isPrototypeOf";
    js "propertyIsEnumerable"; js "toLocaleString"; js "toString";
    js "valueOf"; js "__proto__"; js "__defineGetter__";
    js "__defineSetter__"; js "__lookupGetter__"; js "__lookupSetter__" ].

(** Truthiness of [courseInfo.season[key]]. *)
Definition seasonLookup (s : Season.t) (key : option jsstring) : bool :=
  match key with
  | None => false
  | Some k =>
      if streq k (js "spring") then Season.spring s
      else if streq k (js "autumn") then Season.autumn s
      else existsb (streq k) objectPrototypeKeys
  end.

(** [courseInfo.module.includes(key)] *)
Definition moduleIncludes (l : list jsstring) (key : option jsstring) : bool :=
  match key with
  | None => false
  | Some k => existsb (streq k) l
  end.

(** *** The pass over the entries

    The callbacks of [applyFilter] close over [isOddRow] and receive the
    entry; both are the state of a small monad with [throw]. *)

Record cbState := CbState { isOddRow : bool; course : HTMLElement }.

Definition M (A : Type) : Type := cbState -> cbState * completion A.

Definition ret {A} (a : A) : M A := fun st => (st, Normal a).

Definition bind {A B} (m : M A) (f : A -> M B) : M B :=
  fun st =>
    match m st with
    | (st', Normal a) => f a st'
    | (st', Throw e) => (st', Throw e)
    end.

Definition lift {A} (c : completion A) : M A := fun st => (st, c).

Notation "x <- m ;; f" := (bind m (fun x => f))
  (at level 61, m at next level, right associativity).
Notation "m ;; f" := (bind m (fun _ => f))
  (at level 61, right associativity).

Definition setDisplay (v : jsstring) : M unit :=
  fun st => (CbState (isOddRow st) (set_display v (course st)), Normal tt).

Definition classListReplace (token newToken : jsstring) : M unit :=
  fun st =>
    (CbState (isOddRow st)
             (set_classList (replace token newToken (classList (course st)))
                            (course st)),
     Normal tt).

Definition getIsOddRow : M bool := fun st => (st, Normal (isOddRow st)).

Definition setIsOddRow (b : bool) : M unit :=
  fun st => (CbState b (course st), Normal tt).

Definition handleOddRow : M unit :=
  odd <- getIsOddRow ;;
  (if odd then classListReplace (js "row0") (js "row1")
   else classListReplace (js "row1") (js "row0")) ;;
  setIsOddRow (negb odd).

Definition showCourse (viewMode : ViewMode) : M unit :=
  match viewMode with
  | list_view => setDisplay (js "table-row") ;; handleOddRow
  | thumbnail_view => setDisplay (js "block")
  end.

Definition hideCourse : M unit := setDisplay (js "none").

(** The label of an entry: the text of its third cell in list view, the
    title of its date element, or the empty string, in thumbnail view.
    The third branch of the source, a [throw], cannot be reached: the
    view mode is one of the two. *)
Definition readCourseInfoString (viewMode : ViewMode) : M jsstring :=
  fun st =>
    match viewMode with
    | list_view =>
        match children2_innerText (course st) with
        | Some text => (st, Normal text)
        | None => (st, Throw TypeError)
        end
    | thumbnail_view =>
        match dateSpan_title (course st) with
        | Some title => (st, Normal title)
        | None => (st, Normal [])
        end
    end.

(** The callback of the first [forEach], for a selector other than
    ["all"].  The parser is an argument so that statements can say which
    branches call it. *)
Definition filterCourse
    (parser : jsstring -> completion (option CourseInfo.t))
    (viewMode : ViewMode) (parsedModuleCode : ParsedModuleCode.t) : M unit :=
  (match viewMode with
   | list_view => setDisplay (js "table-row")
   | thumbnail_view => ret tt
   end) ;;
  courseInfoString <- readCourseInfoString viewMode ;;
  if test shapeRegex courseInfoString then
    courseInfo <- lift (parser courseInfoString) ;;
    if match courseInfo with
       | Some info =>
           seasonLookup (CourseInfo.season info)
                        (ParsedModuleCode.season parsedModuleCode)
           && moduleIncludes (CourseInfo.module info)
                             (ParsedModuleCode.module parsedModuleCode)
       | None => false
       end
    then showCourse viewMode
    else hideCourse
  else showCourse viewMode.

(** [courses.forEach(callback)]: the entries in order, [isOddRow] carried
    from one call to the next; a [throw] ends the loop and leaves the
    remaining entries as they were. *)
Fixpoint forEach (callback : M unit) (odd : bool) (courses : list HTMLElement)
    : list HTMLElement * bool * completion unit :=
  match courses with
  | [] => ([], odd, Normal tt)
  | c :: courses' =>
      match callback (CbState odd c) with
      | (st, Normal _) =>
          let '(done, odd', outcome) := forEach callback (isOddRow st) courses' in
          (course st :: done, odd', outcome)
      | (st, Throw e) => (course st :: courses', isOddRow st, Throw e)
      end
  end.

(** The body of [applyFilter] after the layout is known. *)
Definition filterEntries (lang moduleCode : jsstring) (viewMode : ViewMode)
    (courses : list HTMLElement)
    : list HTMLElement * bool * completion unit :=
  let isOddRow0 := true in
  if negb (streq moduleCode (js "all")) then
    match parseModuleCode moduleCode with
    | Normal parsedModuleCode =>
        forEach (filterCourse (parseCourseInfoString lang) viewMode
                              parsedModuleCode)
                isOddRow0 courses
    | Throw e => (courses, isOddRow0, Throw e)
    end
  else forEach (showCourse viewMode) isOddRow0 courses.

(** [applyFilter]: the document after the call and how the call ended.
    In list view the first child of the container is the header row
    ([shift]), in thumbnail view the last child is not an entry ([pop]). *)
Definition applyFilter (lang moduleCode : jsstring) (doc : Document)
    : Document * completion unit :=
  match coursesListContainer doc, coursesThumbnailContainer doc with
  | Some children, _ =>
      let courses := tl children in
      let '(courses', _, outcome) :=
        filterEntries lang moduleCode list_view courses in
      ({| coursesListContainer := Some (firstn 1 children ++ courses');
          coursesThumbnailContainer := coursesThumbnailContainer doc |},
       outcome)
  | None, Some children =>
      let courses := removelast children in
      let '(courses', _, outcome) :=
        filterEntries lang moduleCode thumbnail_view courses in
      ({| coursesListContainer := None;
          coursesThumbnailContainer :=
            Some (courses' ++ skipn (List.length courses) children) |},
       outcome)
  | None, None => (doc, Throw (ThrownString (js "invalid viewMode")))
  end.

(** *** The selector *)

(** [s.toUpperCase()], applied by the source to a segment letter. *)
Definition toUpperCase (s : jsstring) : jsstring := map upperUnit s.

(** [seasonCodeToText], with [lang] as an argument.  [None] is the
    [undefined] of a [switch] none of whose cases matches. *)
Definition seasonCodeToText (lang : jsstring) (seasonCode : option jsstring)
    : option jsstring :=
  match seasonCode with
  | None => None
  | Some code =>
      if streq code (js "spring") then
        if streq lang (js "ja") then Some (js "春")
        else if streq lang (js "en") then Some (js "Spring")
        else Some []
      else if streq code (js "autumn") then
        if streq lang (js "ja") then Some (js "秋")
        else if streq lang (js "en") then Some (js "Autumn")
        else Some []
      else None
  end.

(** A value inside a template literal. *)
Definition templateText (v : option jsstring) : jsstring :=
  match v with
  | Some t => t
  | None => js "undefined"
  end.

(** [moduleCodeToText] of [createModuleSelector].  For ["all"] under a
    language other than ["ja"] and ["en"] the first [if] returns nothing
    and the code is decoded like any other. *)
Definition moduleCodeToText (lang moduleCode : jsstring) : completion jsstring :=
  let early :=
    if streq moduleCode (js "all") then
      if streq lang (js "ja") then Some (js "すべてのモジュール")
      else if streq lang (js "en") then Some (js "All modules")
      else None
    else None in
  match early with
  | Some text => Normal text
  | None =>
      match parseModuleCode moduleCode with
      | Normal parsedModuleCode =>
          let season :=
            seasonCodeToText lang (ParsedModuleCode.season parsedModuleCode) in
          match ParsedModuleCode.module parsedModuleCode with
          | Some module => Normal (templateText season ++ toUpperCase module)
          | None => Throw TypeError
          end
      | Throw e => Throw e
      end
  end.

Record HTMLOptionElement := {
  option_value : jsstring;
  option_innerText : jsstring;
  (** the attribute [selected], [None] when it is not set *)
  option_selected : option jsstring
}.

Record HTMLSelectElement := {
  select_name : jsstring;
  (** the appended options, in order *)
  select_options : list HTMLOptionElement
}.

(** One round of the [forEach] of [createModuleSelector], up to
    [appendChild]. *)
Definition createOption (lang moduleCode : jsstring)
    : completion HTMLOptionElement :=
  match moduleCodeToText lang moduleCode with
  | Normal text =>
      Normal {| option_value := moduleCode;
                option_innerText := text;
                option_selected :=
                  if streq moduleCode (js "all") then Some (js "true")
                  else None |}
  | Throw e => Throw e
  end.

Fixpoint appendOptions (lang : jsstring) (codes : list jsstring)
    (options : list HTMLOptionElement) : completion (list HTMLOptionElement) :=
  match codes with
  | [] => Normal options
  | moduleCode :: codes' =>
      match createOption lang moduleCode with
      | Normal optionDom => appendOptions lang codes' (options ++ [optionDom])
      | Throw e => Throw e
      end
  end.

(** [createModuleSelector]: the child nodes of
    [.my-infolist-mycourses .showmore] after the call ([None] when there
    is no such element) and the selector returned.  The nodes already
    there are of any type [A]. *)
Definition createModuleSelector {A : Type} (lang : jsstring)
    (selectorsContainer : option (list (HTMLSelectElement + A)))
    : option (list (HTMLSelectElement + A)) * completion HTMLSelectElement :=
  match appendOptions lang moduleCodes [] with
  | Normal options =>
      let moduleSelector :=
        {| select_name := js "select"; select_options := options |} in
      (match selectorsContainer with
       | Some childNodes => Some (inl moduleSelector :: childNodes)
       | None => None
       end,
       Normal moduleSelector)
  | Throw e => (selectorsContainer, Throw e)
  end.

(* ------------------------------------------------------------------ *)
(** ** Vocabulary of the specification *)

(** The six selectors other than ["all"]. *)
Definition concreteModuleCodes : list jsstring := tl moduleCodes.

(** Encoding as the specification words it: season, one separator, the
    segment in lower case. *)
Definition encodeModuleCode (season segment : jsstring) : jsstring :=
  season ++ js "-" ++ toLowerCase segment.

(** The label the callback extracts from an entry. *)
Definition courseLabel (viewMode : ViewMode) (c : HTMLElement)
    : completion jsstring :=
  snd (readCourseInfoString viewMode (CbState true c)).

(** The display value of a shown entry. *)
Definition shownDisplay (viewMode : ViewMode) : jsstring :=
  match viewMode with
  | list_view => js "table-row"
  | thumbnail_view => js "block"
  end.

Definition isShown (viewMode : ViewMode) (c : HTMLElement) : bool :=
  streq (style_display c) (shownDisplay viewMode).

Definition isHidden (c : HTMLElement) : bool :=
  streq (style_display c) (js "none").

(** The class swap a row receives when it is shown in striping state
    [odd]. *)
Definition stripe (odd : bool) (classes : list jsstring) : list jsstring :=
  if odd then replace (js "row0") (js "row1") classes
  else replace (js "row1") (js "row0") classes.

(** A row carries exactly the odd class, or exactly the even class. *)
Definition hasRowClass (odd : bool) (c : HTMLElement) : Prop :=
  if odd
  then contains (classList c) (js "row1") = true
       /\ contains (classList c) (js "row0") = false
  else contains (classList c) (js "row0") = true
       /\ contains (classList c) (js "row1") = false.

(** A row of the list layout carries one of the two striping classes. *)
Definition striped (c : HTMLElement) : Prop :=
  contains (classList c) (js "row0") = true
  \/ contains (classList c) (js "row1") = true.

(** The striping state in which entry [i] is handled when every earlier
    entry was shown. *)
Definition oddAt (i : nat) : bool := Nat.even i.


(** The strings the shape test accepts: a non-empty part without line
    terminator, one white-space code unit, and another non-empty part
    without line terminator. *)
Definition shapeSplit (s : jsstring) : Prop :=
  exists x w y,
    s = x ++ w :: y /\ x <> [] /\ y <> []
    /\ forallb dot x = true /\ isSpace w = true /\ forallb dot y = true.

(** The entry as the callback of a concrete selector leaves it when it
    ends in a [throw]: in list view its display was reset first. *)
Definition entered (viewMode : ViewMode) (c : HTMLElement) : HTMLElement :=
  match viewMode with
  | list_view => set_display (js "table-row") c
  | thumbnail_view => c
  end.

(** The condition under which a parsed entry is shown. *)
Definition selected (courseInfo : option CourseInfo.t)
    (parsedModuleCode : ParsedModuleCode.t) : bool :=
  match courseInfo with
  | Some info =>
      seasonLookup (CourseInfo.season info)
                   (ParsedModuleCode.season parsedModuleCode)
      && moduleIncludes (CourseInfo.module info)
                        (ParsedModuleCode.module parsedModuleCode)
  | None => false
  end.

(** A shown entry, and the striping state after it. *)
Definition shownEntry (viewMode : ViewMode) (odd : bool) (c : HTMLElement)
    : HTMLElement :=
  match viewMode with
  | list_view =>
      set_classList (stripe odd (classList c))
                    (set_display (js "table-row") c)
  | thumbnail_view => set_display (js "block") c
  end.

Definition oddAfterShow (viewMode : ViewMode) (odd : bool) : bool :=
  match viewMode with
  | list_view => negb odd
  | thumbnail_view => odd
  end.

Definition hiddenEntry (c : HTMLElement) : HTMLElement :=
  set_display (js "none") c.

(** A list-view callback that either shows the entry or hides it. *)
Definition showOrHide (cb : M unit) : Prop :=
  forall odd c st',
    cb (CbState odd c) = (st', Normal tt) ->
    st' = CbState (negb odd) (shownEntry list_view odd c)
    \/ st' = CbState odd (hiddenEntry c).

(** The decoded selector, as [parseModuleCode] builds it. *)
Definition decoded (moduleCode : jsstring) : ParsedModuleCode.t :=
  ParsedModuleCode.Build (index (split1 45 moduleCode) 0)
                         (index (split1 45 moduleCode) 1).

(** An entry whose label fails the shape test. *)
Definition failsShape (viewMode : ViewMode) (c : HTMLElement) : bool :=
  match courseLabel viewMode c with
  | Normal label => negb (test shapeRegex label)
  | Throw _ => false
  end.

(** A row of the list layout and a card of the thumbnail layout, for the
    examples below. *)
Definition listRow (display class label : string) : HTMLElement :=
  {| style_display := js display;
     classList := [js class];
     children2_innerText := Some (js label);
     dateSpan_title := None |}.

Definition card (display label : string) : HTMLElement :=
  {| style_display := js display;
     classList := [js "coursecard"];
     children2_innerText := None;
     dateSpan_title := Some (js label) |}.

Definition sampleRows : list HTMLElement :=
  [ listRow "none" "row0" "Spring AB Mon. 2";
    listRow "table-row" "row0" "Autumn A Tue. 1";
    listRow "none" "row1" "Spring A Fri. 3";
    listRow "none" "row1" "TBA" ].

Definition headerRow : HTMLElement :=
  {| style_display := [];
     classList := [js "title"];
     children2_innerText := Some (js "Year / Term");
     dateSpan_title := None |}.

Definition listDocument (rows : list HTMLElement) : Document :=
  {| coursesListContainer := Some (headerRow :: rows);
     coursesThumbnailContainer := None |}.

(** The two languages the parser knows. *)
Definition supported (lang : jsstring) : bool :=
  streq lang (js "ja") || streq lang (js "en").

(** What the label accessors of an entry read. *)
Definition labelFields (c : HTMLElement) : option jsstring * option jsstring :=
  (children2_innerText c, dateSpan_title c).

(** A row that carries exactly one of the two striping classes. *)
Definition exclusive (c : HTMLElement) : Prop :=
  hasRowClass true c \/ hasRowClass false c.

Definition hasThirdCell (c : HTMLElement) : bool :=
  match children2_innerText c with
  | Some _ => true
  | None => false
  end.

(** The season code a season glyph or a season word stands for. *)
Definition glyphSeason (g : unit16) : jsstring :=
  if g =? 26149 then js "spring" else js "autumn".

Definition wordSeason (w : jsstring) : option jsstring :=
  if streq w (js "Spring") then Some (js "spring")
  else if streq w (js "Autumn") then Some (js "autumn")
  else None.

(** The selected letter occurs in a run of segment letters, in either
    case. *)
Definition runHasSegment (run segment : jsstring) : bool :=
  existsb (fun u => streq segment [lowerUnit u]) run.

Definition seasonCodes : list jsstring := [js "spring"; js "autumn"].

Definition segmentCodes : list jsstring := [js "a"; js "b"; js "c"].

(** What a callback of [applyFilter] can do with an entry: throw after
    the entry was entered, show it, or hide it. *)
Definition showsHidesOrThrows (viewMode : ViewMode) (cb : M unit) : Prop :=
  forall odd c st r,
    cb (CbState odd c) = (st, r) ->
    (st = CbState odd (entered viewMode c) /\ exists e, r = Throw e)
    \/ (st = CbState (oddAfterShow viewMode odd) (shownEntry viewMode odd c)
        /\ r = Normal tt)
    \/ (st = CbState odd (hiddenEntry c) /\ r = Normal tt).

(** A callback that, run again on the entry it produced, produces it
    again. *)
Definition stable (cb : M unit) : Prop :=
  forall odd c st r,
    cb (CbState odd c) = (st, r) -> cb (CbState odd (course st)) = (st, r).

(** A card of the thumbnail layout without date element. *)
Definition bareCard : HTMLElement :=
  {| style_display := js "none";
     classList := [js "coursecard"];
     children2_innerText := None;
     dateSpan_title := None |}.

(** Case analysis over the six concrete codes: [tac] closes each case. *)
Ltac each_concrete_code tac :=
  cbv [concreteModuleCodes moduleCodes tl In];
  let H := fresh "H" in
  intros H; repeat (destruct H as [<- | H]; [tac|]); contradiction.

(* ------------------------------------------------------------------ *)
(** ** Strings and the matcher *)

Lemma streq_refl (s : jsstring) : streq s s = true.
Proof.
  induction s as [|c s IH]; simpl; [reflexivity|].
  now rewrite N.eqb_refl, IH.
Qed.

Lemma streq_eq (a b : jsstring) : streq a b = true <-> a = b.
Proof.
  split; [|intros ->; apply streq_refl].
  revert b; induction a as [|x a IH]; intros [|y b]; simpl;
    try discriminate; auto.
  intros H. apply andb_true_iff in H as [Hxy Hab].
  apply N.eqb_eq in Hxy. apply IH in Hab. congruence.
Qed.

Lemma streq_neq (a b : jsstring) : streq a b = false <-> a <> b.
Proof.
  split.
  - intros H E. apply streq_eq in E. congruence.
  - intros H. destruct (streq a b) eqn:E; [|reflexivity].
    apply streq_eq in E. contradiction.
Qed.

Section MatcherFacts.

Context {R : Type}.
Variable p : unit16 -> bool.
Variable k : mstate -> option R.

(** A successful [star] consumed a run of the class and its continuation
    succeeded on what follows. *)
Lemma star_sound (rst : jsstring) :
  forall bef cs r,
    star p k bef rst cs = Some r ->
    exists run tail,
      rst = run ++ tail /\ forallb p run = true
      /\ k (MState (rev run ++ bef) tail cs) = Some r.
Proof.
  induction rst as [|c rst IH]; intros bef cs r H; simpl in H.
  - exists [], []. auto.
  - destruct (p c) eqn:Hc.
    + destruct (star p k (c :: bef) rst cs) as [r0|] eqn:Hs.
      * injection H as <-. apply IH in Hs as (run & tail & -> & Hrun & Hk).
        exists (c :: run), tail. simpl. rewrite Hc, Hrun.
        repeat split; auto. now rewrite <- app_assoc.
      * exists [], (c :: rst). auto.
    + exists [], (c :: rst). auto.
Qed.

(** Whenever the continuation succeeds after some run of the class,
    [star] succeeds (possibly after a longer run). *)
Lemma star_complete (run : jsstring) :
  forall tail bef cs r,
    forallb p run = true ->
    k (MState (rev run ++ bef) tail cs) = Some r ->
    exists r', star p k bef (run ++ tail) cs = Some r'.
Proof.
  induction run as [|c run IH]; intros tail bef cs r Hrun Hk; simpl in *.
  - destruct tail as [|c tail]; simpl; [eauto|].
    destruct (p c); [|eauto].
    destruct (star p k (c :: bef) tail cs); eauto.
  - apply andb_true_iff in Hrun as [Hc Hrun]. rewrite Hc.
    rewrite <- app_assoc in Hk. simpl in Hk.
    destruct (IH tail (c :: bef) cs r Hrun Hk) as [r' ->]. eauto.
Qed.

End MatcherFacts.

(** A pattern that starts with [^] matches at index 0 or not at all. *)
Lemma exec_from_anchored (r : regex) (rst : jsstring) :
  forall c bef, exec_from (Cat Bos r) (c :: bef) rst = None.
Proof.
  induction rst as [|d rst IH]; intros c bef; simpl; auto.
Qed.

Lemma exec_anchored (r : regex) (s : jsstring) :
  exec (Cat Bos r) s = attempt r [] s.
Proof.
  unfold exec.
  assert (E : attempt (Cat Bos r) [] s = attempt r [] s) by reflexivity.
  destruct s as [|c s]; cbn [exec_from]; rewrite E;
    destruct (attempt r [] _); try reflexivity.
  apply exec_from_anchored.
Qed.

(** *** The shape test [/^.+\s.+$/] *)

Lemma shape_sound (s : jsstring) : test shapeRegex s = true -> shapeSplit s.
Proof.
  unfold test, shapeRegex. rewrite exec_anchored. unfold attempt.
  destruct (rmatch _ _ _) as [cs|] eqn:H; [intros _|discriminate].
  cbn [rmatch] in H. unfold plus at 1 in H. cbn [rest before caps] in H.
  destruct s as [|c s]; [discriminate|].
  destruct (dot c) eqn:Hc; [|discriminate].
  apply star_sound in H as (run & tail & -> & Hrun & Hk).
  cbn [rmatch rest before caps] in Hk.
  destruct tail as [|w tail]; [discriminate|].
  destruct (isSpace w) eqn:Hw; [|discriminate].
  unfold plus in Hk. cbn [rest before caps] in Hk.
  destruct tail as [|d tail]; [discriminate|].
  destruct (dot d) eqn:Hd; [|discriminate].
  apply star_sound in Hk as (run2 & tail2 & -> & Hrun2 & Hk).
  cbn [rest] in Hk. destruct tail2; [|discriminate].
  exists (c :: run), w, (d :: run2). rewrite app_nil_r. simpl.
  rewrite Hc, Hd, Hrun, Hrun2. repeat split; auto; discriminate.
Qed.

Lemma shape_complete (s : jsstring) : shapeSplit s -> test shapeRegex s = true.
Proof.
  intros (x & w & y & -> & Hx & Hy & Hdx & Hw & Hdy).
  unfold test, shapeRegex. rewrite exec_anchored. unfold attempt.
  destruct x as [|c x]; [contradiction|].
  destruct y as [|d y]; [contradiction|].
  simpl in Hdx, Hdy.
  apply andb_true_iff in Hdx as [Hc Hdx], Hdy as [Hd Hdy].
  cbn [rmatch]. unfold plus at 1. cbn [rest before caps app]. rewrite Hc.
  match goal with
  | |- match ?e with _ => _ end = true =>
      enough (exists r', e = Some r') as [r' ->] by reflexivity
  end.
  pose (kf := fun st : mstate => Some (caps st)).
  destruct (star_complete dot (rmatch Eos kf) y [] (d :: w :: rev x ++ [c]) []
              [] Hdy eq_refl) as [r Hr].
  rewrite app_nil_r in Hr.
  eapply star_complete with (r := r); [exact Hdx|].
  cbn [rmatch rest before caps]. rewrite Hw.
  unfold plus. cbn [rest before caps]. rewrite Hd. exact Hr.
Qed.

Lemma shape_iff (s : jsstring) : test shapeRegex s = true <-> shapeSplit s.
Proof. split; [apply shape_sound | apply shape_complete]. Qed.


(** *** The two course-info patterns *)

Lemma consumed_run (run bef rst rst' : jsstring) cs cs' :
  consumed (MState bef rst cs) (MState (rev run ++ bef) rst' cs') = run.
Proof.
  unfold consumed. cbn [before].
  rewrite length_app, Nat.add_sub, firstn_app, Nat.sub_diag, firstn_all.
  simpl. rewrite app_nil_r. apply rev_involutive.
Qed.

(** What a match of [/^([春秋])([abc]+)/i] looks like. *)
Lemma ja_match (s : jsstring) m :
  exec courseInfoRegex_ja s = Some m ->
  exists c run tail,
    s = c :: run ++ tail
    /\ oneOf_i (js "春秋") c = true
    /\ run <> [] /\ forallb (oneOf_i (js "abc")) run = true
    /\ group 1 m = Some [c] /\ group 2 m = Some run.
Proof.
  unfold courseInfoRegex_ja. rewrite exec_anchored. unfold attempt.
  cbn [rmatch rest before caps]. intros H.
  destruct s as [|c s]; [discriminate|].
  destruct (oneOf_i (js "春秋") c) eqn:Hc; [|discriminate].
  unfold plus in H. cbn [rest before caps] in H.
  destruct s as [|a s]; [discriminate|].
  destruct (oneOf_i (js "abc") a) eqn:Ha; [|discriminate].
  apply star_sound in H as (run & tail & -> & Hrun & Hk).
  cbn [rest before caps] in Hk.
  change (rev run ++ [a; c]) with (rev run ++ [a] ++ [c]) in Hk.
  rewrite app_assoc in Hk. change (rev run ++ [a]) with (rev (a :: run)) in Hk.
  rewrite consumed_run in Hk. injection Hk as <-.
  exists c, (a :: run), tail. cbn [forallb group Nat.eqb app].
  rewrite Ha, Hrun. repeat split; auto. discriminate.
Qed.

(** A literal word consumes as many code units as it has, each equal to
    its own up to case. *)
Lemma lit_i_sound {R} (w : jsstring) :
  forall (k : mstate -> option R) st r,
    rmatch (lit_i w) k st = Some r ->
    exists x tail,
      rest st = x ++ tail
      /\ Forall2 (fun a c => oneOf_i [a] c = true) w x
      /\ k (MState (rev x ++ before st) tail (caps st)) = Some r.
Proof.
  induction w as [|a w IH]; intros k st r H; cbn [lit_i rmatch] in H.
  - exists [], (rest st). destruct st. auto.
  - destruct (rest st) as [|c rst'] eqn:E; [discriminate|].
    destruct (oneOf_i [a] c) eqn:Hc; [|discriminate].
    apply IH in H as (x & tail & E' & Hx & Hk).
    cbn [rest before caps] in *.
    exists (c :: x), tail. subst rst'. repeat split; auto.
    simpl. now rewrite <- app_assoc.
Qed.

(** What a match of [/^(Spring|Autumn)\s([abc]+)/i] looks like. *)
Lemma en_match (s : jsstring) m :
  exec courseInfoRegex_en s = Some m ->
  exists word sp run tail,
    s = word ++ sp :: run ++ tail
    /\ (Forall2 (fun a c => oneOf_i [a] c = true) (js "Spring") word
        \/ Forall2 (fun a c => oneOf_i [a] c = true) (js "Autumn") word)
    /\ isSpace sp = true
    /\ run <> [] /\ forallb (oneOf_i (js "abc")) run = true
    /\ group 1 m = Some word /\ group 2 m = Some run.
Proof.
  unfold courseInfoRegex_en. rewrite exec_anchored. unfold attempt.
  cbn [rmatch]. intros H.
  match type of H with
  | match rmatch _ ?K ?st0 with _ => _ end = _ =>
      assert (Hw : exists w0,
                 (w0 = js "Spring" \/ w0 = js "Autumn")
                 /\ rmatch (lit_i w0) K st0 = Some m)
  end.
  { destruct (rmatch (lit_i (js "Spring")) _ _) as [r|] eqn:H1.
    - injection H as ->. exists (js "Spring"). auto.
    - exists (js "Autumn"). auto. }
  clear H. destruct Hw as (w0 & Hw0 & H).
  apply lit_i_sound in H as (word & tail0 & E & Hword & Hk).
  cbn [rest before caps] in E, Hk. subst s.
  destruct tail0 as [|sp tail0]; [discriminate|].
  destruct (isSpace sp) eqn:Hsp; [|discriminate].
  unfold plus in Hk. cbn [rest before caps] in Hk.
  destruct tail0 as [|a tail0]; [discriminate|].
  destruct (oneOf_i (js "abc") a) eqn:Ha; [|discriminate].
  apply star_sound in Hk as (run & tail & -> & Hrun & Hk).
  cbn [rest before caps] in Hk.
  change (rev run ++ a :: sp :: rev word ++ [])
    with (rev run ++ [a] ++ sp :: rev word ++ []) in Hk.
  rewrite app_assoc in Hk. change (rev run ++ [a]) with (rev (a :: run)) in Hk.
  rewrite consumed_run in Hk.
  rewrite (consumed_run word [] (word ++ sp :: a :: run ++ tail)) in Hk.
  injection Hk as <-.
  exists word, sp, (a :: run), tail. cbn [forallb group Nat.eqb app].
  rewrite Ha, Hrun. repeat split; auto.
  - destruct Hw0 as [-> | ->]; auto.
  - discriminate.
Qed.

(* ------------------------------------------------------------------ *)
(** ** The callbacks *)

Lemma showCourse_eq (viewMode : ViewMode) (odd : bool) (c : HTMLElement) :
  showCourse viewMode (CbState odd c)
  = (CbState (oddAfterShow viewMode odd) (shownEntry viewMode odd c),
     Normal tt).
Proof. destruct viewMode, odd; reflexivity. Qed.

(** The callback of a concrete selector, branch by branch. *)
Lemma filterCourse_eq parser viewMode pmc odd c :
  filterCourse parser viewMode pmc (CbState odd c)
  = match courseLabel viewMode c with
    | Throw e => (CbState odd (entered viewMode c), Throw e)
    | Normal label =>
        if test shapeRegex label then
          match parser label with
          | Throw e => (CbState odd (entered viewMode c), Throw e)
          | Normal courseInfo =>
              if selected courseInfo pmc
              then showCourse viewMode (CbState odd c)
              else (CbState odd (hiddenEntry c), Normal tt)
          end
        else showCourse viewMode (CbState odd c)
    end.
Proof.
  unfold filterCourse, courseLabel, readCourseInfoString, bind, lift, selected.
  destruct viewMode; cbn [setDisplay ret course isOddRow snd fst
                          children2_innerText dateSpan_title set_display].
  - destruct (children2_innerText c) as [label|]; cbn [snd]; [|reflexivity].
    destruct (test shapeRegex label); [|destruct odd; reflexivity].
    destruct (parser label) as [[info|]|e]; try reflexivity.
    destruct (_ && _); destruct odd; reflexivity.
  - destruct (dateSpan_title c) as [label|]; cbn [snd].
    + destruct (test shapeRegex label); [|reflexivity].
      destruct (parser label) as [[info|]|e]; try reflexivity.
      destruct (_ && _); reflexivity.
    + destruct (test shapeRegex []); [|reflexivity].
      destruct (parser []) as [[info|]|e]; try reflexivity.
      destruct (_ && _); reflexivity.
Qed.

(* ------------------------------------------------------------------ *)
(** ** The loop *)

Lemma forEach_app (cb : M unit) (pre : list HTMLElement) :
  forall odd post,
    forEach cb odd (pre ++ post)
    = match forEach cb odd pre with
      | (pre', o, Normal _) =>
          let '(post', o', r) := forEach cb o post in (pre' ++ post', o', r)
      | (pre', o, Throw e) => (pre' ++ post, o, Throw e)
      end.
Proof.
  induction pre as [|c pre IH]; intros odd post; simpl.
  - destruct (forEach cb odd post) as [[post' o'] r]. reflexivity.
  - destruct (cb (CbState odd c)) as [st [v|e]]; [|reflexivity].
    rewrite IH.
    destruct (forEach cb (isOddRow st) pre) as [[pre' o] [v'|e']];
      [|reflexivity].
    destruct (forEach cb o post) as [[post' o'] r]. reflexivity.
Qed.

(** In a pass that runs to its end every entry went through the
    callback, in the striping state the entries before it left. *)
Lemma forEach_nth (cb : M unit) (cs : list HTMLElement) :
  forall odd cs' odd' i c,
    forEach cb odd cs = (cs', odd', Normal tt) ->
    nth_error cs i = Some c ->
    exists o st',
      forEach cb odd (firstn i cs) = (firstn i cs', o, Normal tt)
      /\ cb (CbState o c) = (st', Normal tt)
      /\ nth_error cs' i = Some (course st').
Proof.
  induction cs as [|d cs IH]; intros odd cs' odd' i c H Hi.
  - destruct i; discriminate.
  - simpl in H. destruct (cb (CbState odd d)) as [st [[]|e]] eqn:Hd.
    + destruct (forEach cb (isOddRow st) cs) as [[done o1] r] eqn:Hrest.
      injection H as <- <- ->.
      destruct i as [|i]; simpl in Hi.
      * injection Hi as <-. exists odd, st. simpl. auto.
      * destruct (IH _ _ _ _ _ Hrest Hi) as (o & st' & Hpre & Hcb & Hn).
        exists o, st'. simpl. rewrite Hd, Hpre. auto.
    + discriminate.
Qed.

Lemma showOrHide_showCourse : showOrHide (showCourse list_view).
Proof.
  intros odd c st' H. rewrite showCourse_eq in H. injection H as <-. auto.
Qed.

Lemma showOrHide_filterCourse parser pmc :
  showOrHide (filterCourse parser list_view pmc).
Proof.
  intros odd c st' H. rewrite filterCourse_eq in H.
  destruct (courseLabel list_view c) as [label|e]; [|discriminate].
  destruct (test shapeRegex label).
  - destruct (parser label) as [info|e]; [|discriminate].
    destruct (selected info pmc).
    + rewrite showCourse_eq in H. injection H as <-. auto.
    + injection H as <-. auto.
  - rewrite showCourse_eq in H. injection H as <-. auto.
Qed.

Lemma isShown_shownEntry viewMode odd c :
  isShown viewMode (shownEntry viewMode odd c) = true.
Proof. destruct viewMode; reflexivity. Qed.

Lemma isShown_hiddenEntry viewMode c :
  isShown viewMode (hiddenEntry c) = false.
Proof. destruct viewMode; reflexivity. Qed.


(** *** The class swap *)

Lemma streq_sym (a b : jsstring) : streq a b = streq b a.
Proof.
  destruct (streq a b) eqn:E; symmetry.
  - apply streq_eq in E. subst. apply streq_refl.
  - apply streq_neq. apply streq_neq in E. congruence.
Qed.

Lemma contains_filtered (item replacement : jsstring) (l : list jsstring) :
  contains
    (filter (fun u => negb (streq u item || streq u replacement)) l) item
  = false.
Proof.
  unfold contains. induction l as [|t l IH]; simpl; [reflexivity|].
  destruct (streq t item) eqn:E; simpl; [exact IH|].
  destruct (streq t replacement); simpl; [exact IH|].
  now rewrite streq_sym, E.
Qed.

(** After [replace] of a token that was there, the new token is in the
    list and the old one is not. *)
Lemma set_replace_spec (item replacement : jsstring) (l : list jsstring) :
  item <> replacement ->
  contains l item = true ->
  contains (set_replace item replacement l) replacement = true
  /\ contains (set_replace item replacement l) item = false.
Proof.
  intros Hne. apply streq_neq in Hne.
  unfold contains. induction l as [|t l IH]; simpl; [discriminate|].
  intros H. destruct (streq t item || streq t replacement) eqn:E.
  - simpl. rewrite streq_refl, Hne. simpl. split; [reflexivity|].
    apply contains_filtered.
  - apply orb_false_iff in E as [E1 E2].
    rewrite (streq_sym item t), E1 in H. simpl in H.
    destruct (IH H) as [IH1 IH2]. simpl.
    rewrite (streq_sym replacement t), E2, (streq_sym item t), E1. auto.
Qed.

Lemma stripe_hasRowClass (odd : bool) (c : HTMLElement) :
  striped c -> hasRowClass odd (shownEntry list_view odd c).
Proof.
  unfold striped, hasRowClass, shownEntry, stripe, replace.
  cbn [classList set_classList].
  intros H. destruct odd.
  - destruct (contains (classList c) (js "row0")) eqn:E0.
    + apply set_replace_spec; [discriminate | exact E0].
    + destruct H as [H|H]; [discriminate | auto].
  - destruct (contains (classList c) (js "row1")) eqn:E1.
    + apply set_replace_spec; [discriminate | exact E1].
    + destruct H as [H|H]; [auto | discriminate].
Qed.

(** *** The pass *)

Lemma filterEntries_concrete lang moduleCode viewMode courses :
  streq moduleCode (js "all") = false ->
  filterEntries lang moduleCode viewMode courses
  = forEach (filterCourse (parseCourseInfoString lang) viewMode
                          (decoded moduleCode))
            true courses.
Proof. intros H. unfold filterEntries. rewrite H. reflexivity. Qed.

Lemma filterEntries_all lang viewMode courses :
  filterEntries lang (js "all") viewMode courses
  = forEach (showCourse viewMode) true courses.
Proof. reflexivity. Qed.

Lemma filterEntries_showOrHide lang moduleCode courses :
  exists cb,
    showOrHide cb
    /\ filterEntries lang moduleCode list_view courses = forEach cb true courses.
Proof.
  destruct (streq moduleCode (js "all")) eqn:E.
  - apply streq_eq in E. subst. eexists. split;
      [apply showOrHide_showCourse | apply filterEntries_all].
  - eexists. split;
      [apply showOrHide_filterCourse | apply filterEntries_concrete, E].
Qed.

(** The pass of the ["all"] selector in list view shows every entry and
    swaps the classes in turn. *)
Lemma forEach_showCourse_list (cs : list HTMLElement) :
  forall odd,
    exists cs',
      forEach (showCourse list_view) odd cs
      = (cs', xorb odd (Nat.odd (List.length cs)), Normal tt)
      /\ forall i c,
           nth_error cs i = Some c ->
           nth_error cs' i
           = Some (shownEntry list_view (xorb odd (Nat.odd i)) c).
Proof.
  induction cs as [|d cs IH]; intros odd.
  - exists []. split; [now destruct odd|]. intros [|i] c H; discriminate.
  - destruct (IH (negb odd)) as (cs' & Hrun & Hnth).
    exists (shownEntry list_view odd d :: cs'). split.
    + cbn [forEach]. rewrite showCourse_eq. cbn [isOddRow course oddAfterShow].
      rewrite Hrun. cbn [List.length]. rewrite Nat.odd_succ, <- Nat.negb_odd.
      destruct odd, (Nat.odd (List.length cs)); reflexivity.
    + intros [|i] c H; simpl in H.
      * injection H as <-. now destruct odd.
      * cbn [nth_error]. rewrite (Hnth _ _ H).
        rewrite Nat.odd_succ, <- Nat.negb_odd.
        destruct odd, (Nat.odd i); reflexivity.
Qed.

(** Over entries whose labels all fail the shape test the callback of a
    concrete selector does what the callback of ["all"] does. *)
Lemma forEach_failsShape parser viewMode pmc (cs : list HTMLElement) :
  forall odd,
    forallb (failsShape viewMode) cs = true ->
    forEach (filterCourse parser viewMode pmc) odd cs
    = forEach (showCourse viewMode) odd cs.
Proof.
  induction cs as [|c cs IH]; intros odd H; [reflexivity|].
  simpl in H. apply andb_true_iff in H as [Hc Hcs].
  cbn [forEach]. rewrite filterCourse_eq. unfold failsShape in Hc.
  destruct (courseLabel viewMode c) as [label|e]; [|discriminate].
  apply negb_true_iff in Hc. rewrite Hc, showCourse_eq.
  rewrite IH by assumption. reflexivity.
Qed.

Lemma forEach_showCourse_normal viewMode (cs : list HTMLElement) :
  forall odd,
    exists cs' odd', forEach (showCourse viewMode) odd cs = (cs', odd', Normal tt).
Proof.
  induction cs as [|c cs IH]; intros odd; cbn [forEach]; [eauto|].
  rewrite showCourse_eq. cbn [isOddRow course].
  destruct (IH (oddAfterShow viewMode odd)) as (cs' & odd' & ->). eauto.
Qed.

(** Every entry of a completed pass of a concrete selector went through
    [filterCourse]. *)
Lemma pass_entry lang moduleCode viewMode courses courses' odd' i c :
  streq moduleCode (js "all") = false ->
  filterEntries lang moduleCode viewMode courses = (courses', odd', Normal tt) ->
  nth_error courses i = Some c ->
  exists o st',
    filterCourse (parseCourseInfoString lang) viewMode (decoded moduleCode)
                 (CbState o c)
    = (st', Normal tt)
    /\ nth_error courses' i = Some (course st').
Proof.
  intros Hall H Hi. rewrite filterEntries_concrete in H by assumption.
  destruct (forEach_nth _ _ _ _ _ _ _ H Hi) as (o & st' & _ & Hcb & Hn).
  eauto.
Qed.

(* ------------------------------------------------------------------ *)
(** ** Properties of the specification *)



(** C6. When the document has neither the list container nor the
    thumbnail container, [applyFilter] throws ["invalid viewMode"] and
    the document is as it was. *)
Theorem unrecognized_layout_fails_first lang moduleCode doc :
  coursesListContainer doc = None ->
  coursesThumbnailContainer doc = None ->
  applyFilter lang moduleCode doc
  = (doc, Throw (ThrownString (js "invalid viewMode"))).
Proof.
  intros Hl Ht. unfold applyFilter. rewrite Hl, Ht. reflexivity.
Qed.

Lemma unrecognized_layout_fails_first_witness :
  applyFilter (js "ja") (js "autumn-b")
    {| coursesListContainer := None; coursesThumbnailContainer := None |}
  = ({| coursesListContainer := None; coursesThumbnailContainer := None |},
     Throw (ThrownString (js "invalid viewMode"))).
Proof.
  apply unrecognized_layout_fails_first; reflexivity.
Defined.



(** C1, as stated, fails: under language ["en"] the label
    ["Fall AB Mon. 2"] passes the shape test and the parser answers "no
    match", and the pass of the selector ["spring-a"] leaves the row
    hidden. *)
Lemma no_match_entry_force_shown_counterexample :
  let row := listRow "table-row" "row0" "Fall AB Mon. 2" in
  test shapeRegex (js "Fall AB Mon. 2") = true
  /\ parseCourseInfoString (js "en") (js "Fall AB Mon. 2") = Normal None
  /\ applyFilter (js "en") (js "spring-a") (listDocument [row])
     = (listDocument [hiddenEntry row], Normal tt)
  /\ isShown list_view (hiddenEntry row) = false.
Proof. vm_compute. repeat split. Qed.

(** C1, amended.  For a concrete selector, an entry whose label passes
    the shape test and for which the parser answers "no match" is hidden:
    its display becomes ["none"], its classes and the striping flag stay
    as they were. *)
Theorem no_match_entry_is_hidden lang viewMode c label :
  courseLabel viewMode c = Normal label ->
  test shapeRegex label = true ->
  parseCourseInfoString lang label = Normal None ->
  (forall parsedModuleCode odd,
     filterCourse (parseCourseInfoString lang) viewMode parsedModuleCode
                  (CbState odd c)
     = (CbState odd (hiddenEntry c), Normal tt))
  /\ (forall moduleCode courses courses' odd' i,
        streq moduleCode (js "all") = false ->
        filterEntries lang moduleCode viewMode courses
        = (courses', odd', Normal tt) ->
        nth_error courses i = Some c ->
        nth_error courses' i = Some (hiddenEntry c)).
Proof.
  intros Hlabel Hshape Hparse.
  assert (Hcb : forall parsedModuleCode odd,
             filterCourse (parseCourseInfoString lang) viewMode
                          parsedModuleCode (CbState odd c)
             = (CbState odd (hiddenEntry c), Normal tt)).
  { intros. rewrite filterCourse_eq, Hlabel, Hshape, Hparse. reflexivity. }
  split; [exact Hcb|].
  intros moduleCode courses courses' odd' i Hall H Hi.
  destruct (pass_entry _ _ _ _ _ _ _ _ Hall H Hi) as (o & st' & Hc & Hn).
  rewrite Hcb in Hc. injection Hc as <-. exact Hn.
Qed.

Lemma no_match_entry_is_hidden_witness :
  filterCourse (parseCourseInfoString (js "ja")) thumbnail_view
               (decoded (js "autumn-a"))
               (CbState true (card "block" "通年 集中"))
  = (CbState true (hiddenEntry (card "block" "通年 集中")), Normal tt).
Proof.
  apply (proj1 (no_match_entry_is_hidden (js "ja") thumbnail_view
                  (card "block" "通年 集中") (js "通年 集中")
                  eq_refl eq_refl eq_refl)).
Defined.

Lemma concrete_not_all moduleCode :
  In moduleCode concreteModuleCodes -> streq moduleCode (js "all") = false.
Proof. each_concrete_code reflexivity. Qed.

(** No concrete selector selects a parse result without a season. *)
Lemma no_season_not_selected moduleCode run :
  In moduleCode concreteModuleCodes ->
  selected (Some (courseInfoOf false false run)) (decoded moduleCode) = false.
Proof. each_concrete_code reflexivity. Qed.

(** A one-line label that matches the pattern of ["en"] passes the shape
    test. *)
Lemma en_match_shape label m :
  exec courseInfoRegex_en label = Some m ->
  forallb dot label = true ->
  test shapeRegex label = true.
Proof.
  intros Hm Hdot.
  apply en_match in Hm
    as (word & sp & run & tail & -> & Hword & Hsp & Hrun & _).
  rewrite forallb_app in Hdot. apply andb_true_iff in Hdot as [Hw Ht].
  simpl in Ht. apply andb_true_iff in Ht as [_ Ht].
  apply shape_complete. exists word, sp, (run ++ tail).
  repeat split; auto.
  - destruct Hword as [H|H]; inversion H; discriminate.
  - destruct run; [contradiction | discriminate].
Qed.

(** C10, as stated, fails: the label ["spring ab"] followed by a line
    feed matches the pattern of ["en"] and parses to no season, but it
    fails the shape test, so the row is shown under the selector
    ["spring-a"] (and under every other one). *)
Lemma other_casing_hidden_counterexample :
  let label := js "spring ab" ++ [10] in
  let row := {| style_display := js "none";
                classList := [js "row0"];
                children2_innerText := Some label;
                dateSpan_title := None |} in
  parseCourseInfoString (js "en") label
  = Normal (Some (courseInfoOf false false (js "ab")))
  /\ applyFilter (js "en") (js "spring-a") (listDocument [row])
     = (listDocument [shownEntry list_view true row], Normal tt)
  /\ isHidden (shownEntry list_view true row) = false.
Proof. vm_compute. repeat split. Qed.

(** C10, amended.  Under ["en"] a label that matches the pattern with a
    season word other than exactly ["Spring"] or ["Autumn"] parses to a
    result with both season flags false.  When the label also passes the
    shape test, as every such label without a line terminator does, the
    entry is hidden under each of the six concrete selectors. *)
Theorem other_casing_parses_to_no_season label m word run :
  exec courseInfoRegex_en label = Some m ->
  group 1 m = Some word ->
  group 2 m = Some run ->
  streq word (js "Spring") = false ->
  streq word (js "Autumn") = false ->
  parseCourseInfoString (js "en") label
  = Normal (Some (courseInfoOf false false run))
  /\ (forallb dot label = true -> test shapeRegex label = true)
  /\ (test shapeRegex label = true ->
      forall viewMode c moduleCode,
        courseLabel viewMode c = Normal label ->
        In moduleCode concreteModuleCodes ->
        (forall odd,
           filterCourse (parseCourseInfoString (js "en")) viewMode
                        (decoded moduleCode) (CbState odd c)
           = (CbState odd (hiddenEntry c), Normal tt))
        /\ (forall courses courses' odd' i,
              filterEntries (js "en") moduleCode viewMode courses
              = (courses', odd', Normal tt) ->
              nth_error courses i = Some c ->
              nth_error courses' i = Some (hiddenEntry c))).
Proof.
  intros Hm Hg1 Hg2 Hs Ha.
  assert (Hparse : parseCourseInfoString (js "en") label
                   = Normal (Some (courseInfoOf false false run))).
  { unfold parseCourseInfoString, test, smatch.
    change (streq (js "en") (js "ja")) with false.
    change (streq (js "en") (js "en")) with true.
    cbv iota. rewrite Hm, Hg1, Hg2, Hs, Ha. reflexivity. }
  split; [exact Hparse|].
  split; [apply (en_match_shape _ _ Hm)|].
  intros Hshape viewMode c moduleCode Hlabel Hcode.
  assert (Hcb : forall odd,
             filterCourse (parseCourseInfoString (js "en")) viewMode
                          (decoded moduleCode) (CbState odd c)
             = (CbState odd (hiddenEntry c), Normal tt)).
  { intros. rewrite filterCourse_eq, Hlabel, Hshape, Hparse.
    rewrite no_season_not_selected by assumption. reflexivity. }
  split; [exact Hcb|].
  intros courses courses' odd' i H Hi.
  destruct (pass_entry _ _ _ _ _ _ _ _ (concrete_not_all _ Hcode) H Hi)
    as (o & st' & Hc & Hn).
  rewrite Hcb in Hc. injection Hc as <-. exact Hn.
Qed.

Lemma other_casing_parses_to_no_season_witness :
  parseCourseInfoString (js "en") (js "AUTUMN A 10:00")
  = Normal (Some (courseInfoOf false false (js "A")))
  /\ filterCourse (parseCourseInfoString (js "en")) list_view
                  (decoded (js "autumn-a"))
                  (CbState true (listRow "none" "row0" "AUTUMN A 10:00"))
     = (CbState true (hiddenEntry (listRow "none" "row0" "AUTUMN A 10:00")),
        Normal tt).
Proof.
  pose proof (other_casing_parses_to_no_season
                (js "AUTUMN A 10:00")
                [(2%nat, js "A"); (1%nat, js "AUTUMN")] (js "AUTUMN") (js "A")
                eq_refl eq_refl eq_refl eq_refl eq_refl)
    as (Hparse & Hone & Hhide).
  split; [exact Hparse|].
  apply (proj1 (Hhide (Hone eq_refl) list_view
                  (listRow "none" "row0" "AUTUMN A 10:00") (js "autumn-a")
                  eq_refl (or_intror (or_intror (or_intror (or_introl eq_refl)))))).
Defined.

(** The class [[春秋]] under the [i] flag holds the two glyphs only. *)
Lemma season_glyph (c : unit16) :
  oneOf_i (js "春秋") c = true -> c = 26149 \/ c = 31179.
Proof.
  change (js "春秋") with [26149; 31179].
  unfold oneOf_i, canonicalize, upperUnit. cbn [existsb].
  change ((97 <=? 26149) && (26149 <=? 122)) with false.
  change ((97 <=? 31179) && (31179 <=? 122)) with false.
  cbv iota. intros H.
  destruct ((97 <=? c) && (c <=? 122)) eqn:E.
  - apply andb_true_iff in E as [E1 E2].
    apply N.leb_le in E1, E2.
    rewrite orb_false_r in H. apply orb_true_iff in H as [H|H];
      apply N.eqb_eq in H; lia.
  - rewrite orb_false_r in H. apply orb_true_iff in H as [H|H];
      apply N.eqb_eq in H; auto.
Qed.

(** C2, as stated, fails: ["春秋ABC"] does not match the pattern of
    ["ja"], whose first group takes exactly one season glyph, so the
    parser answers "no match" instead of a result with both seasons. *)
Lemma full_year_label_counterexample :
  parseCourseInfoString (js "ja") (js "春秋ABC") = Normal None
  /\ parseCourseInfoString (js "ja") (js "春秋ABC")
     <> Normal (Some (CourseInfo.Build (Season.Build true true)
                                       [js "a"; js "b"; js "c"])).
Proof. split; [vm_compute; reflexivity | vm_compute; discriminate]. Qed.

(** C2, amended.  Under ["ja"] the season token of a successful parse is
    a single glyph, so the containment tests set exactly one of the two
    season flags; the segment list is the matched letters in lower case.
    A label that starts with both glyphs, such as ["春秋ABC"], is "no
    match", while ["春ABC"] gives spring only with segments a, b, c. *)
Theorem ja_parse_has_one_season :
  (forall label info,
     parseCourseInfoString (js "ja") label = Normal (Some info) ->
     Season.spring (CourseInfo.season info)
     = negb (Season.autumn (CourseInfo.season info)))
  /\ (forall trailing,
        parseCourseInfoString (js "ja") (js "春秋" ++ trailing) = Normal None)
  /\ parseCourseInfoString (js "ja") (js "春ABC")
     = Normal (Some (CourseInfo.Build (Season.Build true false)
                                      [js "a"; js "b"; js "c"])).
Proof.
  split; [|split].
  - intros label info. unfold parseCourseInfoString, test, smatch.
    change (streq (js "ja") (js "ja")) with true. cbv iota.
    destruct (exec courseInfoRegex_ja label) as [m|] eqn:Hm; [|discriminate].
    apply ja_match in Hm as (c & run & tail & -> & Hc & _ & _ & Hg1 & Hg2).
    rewrite Hg1, Hg2. intros H. injection H as <-.
    apply season_glyph in Hc as [-> | ->]; reflexivity.
  - intros trailing. unfold parseCourseInfoString, test, smatch.
    unfold courseInfoRegex_ja. rewrite exec_anchored. reflexivity.
  - reflexivity.
Qed.

Lemma ja_parse_has_one_season_witness :
  Season.spring (Season.Build false true)
  = negb (Season.autumn (Season.Build false true)).
Proof.
  apply (proj1 ja_parse_has_one_season (js "秋A 水5,6")
           (CourseInfo.Build (Season.Build false true) [js "a"]) eq_refl).
Defined.

(** C3, as stated, fails: [parseModuleCode] has no failure path; on
    ["all"], which is none of the six concrete codes, it returns the
    season ["all"] and an undefined segment. *)
Lemma decode_all_counterexample :
  existsb (streq (js "all")) concreteModuleCodes = false
  /\ parseModuleCode (js "all")
     = Normal (ParsedModuleCode.Build (Some (js "all")) None)
  /\ ~ (forall moduleCode,
          existsb (streq moduleCode) concreteModuleCodes = false ->
          exists e, parseModuleCode moduleCode = Throw e).
Proof.
  split; [reflexivity|]. split; [reflexivity|].
  intros H. destruct (H (js "all") eq_refl) as [e He]. discriminate.
Qed.

Lemma split1_head (sep : unit16) (s : jsstring) :
  exists p ps, split1 sep s = p :: ps.
Proof.
  induction s as [|c s (p & ps & IH)]; simpl; [eauto|].
  destruct (c =? sep); [eauto|]. rewrite IH. eauto.
Qed.

Lemma split1_single (sep : unit16) (s : jsstring) :
  (exists p, split1 sep s = [p]) <-> ~ In sep s.
Proof.
  induction s as [|c s IH]; simpl.
  - split; [tauto | eauto].
  - destruct (c =? sep) eqn:E.
    + apply N.eqb_eq in E. split.
      * intros [p Hp]. destruct (split1_head sep s) as (q & qs & Hq).
        rewrite Hq in Hp. discriminate.
      * intros H. exfalso. apply H. auto.
    + apply N.eqb_neq in E. destruct (split1_head sep s) as (q & qs & Hq).
      rewrite Hq in *. split.
      * intros [p Hp]. injection Hp as <- ->.
        intros [H|H]; [contradiction|]. apply IH; eauto.
      * intros H. assert (Hs : ~ In sep s) by tauto.
        apply IH in Hs as [p Hp]. injection Hp as <- <-. eauto.
Qed.

Lemma split1_no_sep (sep : unit16) (s : jsstring) :
  ~ In sep s -> split1 sep s = [s].
Proof.
  induction s as [|c s IH]; simpl; intros H; [reflexivity|].
  destruct (c =? sep) eqn:E.
  - apply N.eqb_eq in E. exfalso. auto.
  - rewrite IH by tauto. reflexivity.
Qed.

Lemma split1_app (sep : unit16) (a b : jsstring) :
  ~ In sep a -> split1 sep (a ++ sep :: b) = a :: split1 sep b.
Proof.
  induction a as [|c a IH]; simpl; intros H.
  - now rewrite N.eqb_refl.
  - destruct (c =? sep) eqn:E.
    + apply N.eqb_eq in E. exfalso. auto.
    + rewrite IH by tauto. reflexivity.
Qed.

(** C3, amended.  [parseModuleCode] returns normally on every string:
    the season is the text before the first ["-"], the segment is the
    text between the first ["-"] and the next one or the end, and is
    undefined exactly when the string has no ["-"].  On ["all"] it
    returns the season ["all"] without a segment; [applyFilter] decodes
    only after it has found the selector different from ["all"]. *)
Theorem decode_never_fails :
  (forall moduleCode,
     exists season segment,
       parseModuleCode moduleCode
       = Normal (ParsedModuleCode.Build (Some season) segment)
       /\ (segment = None <-> ~ In 45 moduleCode))
  /\ (forall season segment more,
        ~ In 45 season ->
        ~ In 45 segment ->
        parseModuleCode season
        = Normal (ParsedModuleCode.Build (Some season) None)
        /\ parseModuleCode (season ++ 45 :: segment)
           = Normal (ParsedModuleCode.Build (Some season) (Some segment))
        /\ parseModuleCode (season ++ 45 :: segment ++ 45 :: more)
           = Normal (ParsedModuleCode.Build (Some season) (Some segment)))
  /\ parseModuleCode (js "all")
     = Normal (ParsedModuleCode.Build (Some (js "all")) None)
  /\ (forall lang viewMode courses,
        filterEntries lang (js "all") viewMode courses
        = forEach (showCourse viewMode) true courses).
Proof.
  split; [|split; [|split; reflexivity]].
  - intros moduleCode. unfold parseModuleCode, index.
    destruct (split1_head 45 moduleCode) as (p & ps & Hp).
    pose proof (split1_single 45 moduleCode) as Hsingle.
    rewrite Hp in *. exists p, (nth_error (p :: ps) 1).
    split; [reflexivity|]. rewrite <- Hsingle. simpl.
    destruct ps as [|q ps]; split; intros H; eauto; try discriminate.
    destruct H as [p' H]. discriminate.
  - intros season segment more Hs Hg. unfold parseModuleCode, index.
    rewrite !split1_app, !split1_no_sep by assumption.
    destruct (split1_head 45 more) as (p & ps & ->).
    repeat split.
Qed.

Lemma decode_never_fails_witness :
  parseModuleCode (js "autumn")
  = Normal (ParsedModuleCode.Build (Some (js "autumn")) None)
  /\ parseModuleCode (js "autumn" ++ 45 :: js "b")
     = Normal (ParsedModuleCode.Build (Some (js "autumn")) (Some (js "b")))
  /\ parseModuleCode (js "autumn" ++ 45 :: js "b" ++ 45 :: js "x")
     = Normal (ParsedModuleCode.Build (Some (js "autumn")) (Some (js "b"))).
Proof.
  apply (proj1 (proj2 decode_never_fails) (js "autumn") (js "b") (js "x"));
    intros H; repeat (destruct H as [H|H]; [discriminate|]); exact H.
Defined.

(** C8. Under ["en"] the label ["Spring AB Mon. 2"] parses to spring
    only with segments a, b; under ["ja"] the label ["秋A 水5,6"] parses
    to autumn only with segment a; and whatever follows the white space
    after the matched part changes neither result. *)
Theorem parser_examples :
  parseCourseInfoString (js "en") (js "Spring AB Mon. 2")
  = Normal (Some (CourseInfo.Build (Season.Build true false)
                                   [js "a"; js "b"]))
  /\ parseCourseInfoString (js "ja") (js "秋A 水5,6")
     = Normal (Some (CourseInfo.Build (Season.Build false true) [js "a"]))
  /\ (forall trailing,
        parseCourseInfoString (js "en") (js "Spring AB " ++ trailing)
        = Normal (Some (CourseInfo.Build (Season.Build true false)
                                         [js "a"; js "b"])))
  /\ (forall trailing,
        parseCourseInfoString (js "ja") (js "秋A " ++ trailing)
        = Normal (Some (CourseInfo.Build (Season.Build false true)
                                         [js "a"]))).
Proof.
  repeat split; intros; reflexivity.
Qed.

(** C9. Each of the six concrete codes decodes to a season and a
    segment, and the season, the separator and the segment in lower case
    put together give the code back. *)
Theorem decode_encode_roundtrip moduleCode :
  In moduleCode concreteModuleCodes ->
  exists season segment,
    parseModuleCode moduleCode
    = Normal (ParsedModuleCode.Build (Some season) (Some segment))
    /\ encodeModuleCode season segment = moduleCode.
Proof.
  each_concrete_code ltac:(eexists _, _; split; reflexivity).
Qed.

Lemma decode_encode_roundtrip_witness :
  exists season segment,
    parseModuleCode (js "spring-c")
    = Normal (ParsedModuleCode.Build (Some season) (Some segment))
    /\ encodeModuleCode season segment = js "spring-c".
Proof.
  apply (decode_encode_roundtrip (js "spring-c")).
  cbv [concreteModuleCodes moduleCodes tl In]. auto.
Defined.

(** C4, as stated, fails.  Under the unsupported language ["fr"] and the
    selector ["spring-a"]: a row with the label ["TBA"] that precedes the
    first parsed row is shown and striped, and that parsed row has its
    display reset, before ["invalid lang"] is thrown; and when no label
    passes the shape test nothing is thrown at all. *)
Lemma unsupported_language_counterexample :
  let tba := listRow "none" "row0" "TBA" in
  let parsed := listRow "none" "row1" "Spring AB Mon. 2" in
  let last := listRow "none" "row0" "Autumn A Tue. 1" in
  applyFilter (js "fr") (js "spring-a") (listDocument [tba; parsed; last])
  = (listDocument [shownEntry list_view true tba;
                   set_display (js "table-row") parsed;
                   last],
     Throw (ThrownString (js "invalid lang")))
  /\ listDocument [shownEntry list_view true tba;
                   set_display (js "table-row") parsed;
                   last]
     <> listDocument [tba; parsed; last]
  /\ applyFilter (js "fr") (js "spring-a") (listDocument [tba])
     = (listDocument [shownEntry list_view true tba], Normal tt).
Proof.
  split; [vm_compute; reflexivity|].
  split; [vm_compute; discriminate | vm_compute; reflexivity].
Qed.

(** C4, amended.  Under a language other than ["ja"] and ["en"] the
    parser throws ["invalid lang"] on every label, which is not its "no
    match" answer.  A pass of a concrete selector throws it at the first
    entry whose label passes the shape test: the entries before it have
    been shown as under ["all"], that entry has had its display reset in
    list view, the entries after it are as they were.  When no label
    passes the shape test the pass ends normally and is the pass of
    ["all"]. *)
Theorem unsupported_language_fails_at_first_parsed_entry
    lang moduleCode viewMode pre c post label :
  streq lang (js "ja") = false ->
  streq lang (js "en") = false ->
  streq moduleCode (js "all") = false ->
  forallb (failsShape viewMode) pre = true ->
  courseLabel viewMode c = Normal label ->
  test shapeRegex label = true ->
  (forall s,
     parseCourseInfoString lang s = Throw (ThrownString (js "invalid lang"))
     /\ parseCourseInfoString lang s <> Normal None)
  /\ (exists pre' odd,
        forEach (showCourse viewMode) true pre = (pre', odd, Normal tt)
        /\ filterEntries lang moduleCode viewMode (pre ++ c :: post)
           = (pre' ++ entered viewMode c :: post, odd,
              Throw (ThrownString (js "invalid lang"))))
  /\ filterEntries lang moduleCode viewMode pre
     = filterEntries lang (js "all") viewMode pre.
Proof.
  intros Hja Hen Hall Hpre Hlabel Hshape.
  assert (Hparse : forall s, parseCourseInfoString lang s
                             = Throw (ThrownString (js "invalid lang"))).
  { intros s. unfold parseCourseInfoString. rewrite Hja, Hen. reflexivity. }
  split; [|split].
  - intros s. rewrite Hparse. split; [reflexivity | discriminate].
  - destruct (forEach_showCourse_normal viewMode pre true)
      as (pre' & odd & Hshow).
    exists pre', odd. split; [exact Hshow|].
    rewrite filterEntries_concrete by assumption.
    rewrite forEach_app, forEach_failsShape, Hshow by assumption.
    cbn [forEach]. rewrite filterCourse_eq, Hlabel, Hshape, Hparse.
    reflexivity.
  - rewrite filterEntries_concrete, filterEntries_all by assumption.
    apply forEach_failsShape, Hpre.
Qed.

Lemma unsupported_language_fails_at_first_parsed_entry_witness :
  exists pre' odd,
    forEach (showCourse list_view) true [listRow "none" "row0" "TBA"]
    = (pre', odd, Normal tt)
    /\ filterEntries (js "fr") (js "spring-a") list_view
         ([listRow "none" "row0" "TBA"]
          ++ listRow "none" "row1" "Spring AB Mon. 2"
          :: [listRow "none" "row0" "Autumn A Tue. 1"])
       = (pre'
          ++ entered list_view (listRow "none" "row1" "Spring AB Mon. 2")
          :: [listRow "none" "row0" "Autumn A Tue. 1"],
          odd, Throw (ThrownString (js "invalid lang"))).
Proof.
  apply (proj1 (proj2 (unsupported_language_fails_at_first_parsed_entry
                         (js "fr") (js "spring-a") list_view
                         [listRow "none" "row0" "TBA"]
                         (listRow "none" "row1" "Spring AB Mon. 2")
                         [listRow "none" "row0" "Autumn A Tue. 1"]
                         (js "Spring AB Mon. 2")
                         eq_refl eq_refl eq_refl eq_refl eq_refl eq_refl))).
Defined.

(* ------------------------------------------------------------------ *)
(** ** Further properties of the pass *)

Lemma replace_idem (token newToken : jsstring) (l : list jsstring) :
  token <> newToken ->
  replace token newToken (replace token newToken l) = replace token newToken l.
Proof.
  intros Hne. unfold replace at 2 3.
  destruct (contains l token) eqn:E.
  - unfold replace.
    destruct (set_replace_spec token newToken l Hne E) as [_ ->]. reflexivity.
  - unfold replace. rewrite E. reflexivity.
Qed.

Lemma stripe_idem (odd : bool) (l : list jsstring) :
  stripe odd (stripe odd l) = stripe odd l.
Proof. destruct odd; apply replace_idem; discriminate. Qed.

Lemma shownEntry_idem viewMode odd c :
  shownEntry viewMode odd (shownEntry viewMode odd c) = shownEntry viewMode odd c.
Proof.
  destruct viewMode; [|reflexivity].
  unfold shownEntry, set_classList, set_display.
  cbn [classList style_display children2_innerText dateSpan_title].
  rewrite stripe_idem. reflexivity.
Qed.

Lemma courseLabel_fields viewMode c c' :
  labelFields c' = labelFields c -> courseLabel viewMode c' = courseLabel viewMode c.
Proof.
  unfold labelFields, courseLabel, readCourseInfoString. cbn [course].
  intros H. injection H as -> ->.
  destruct viewMode;
    [destruct (children2_innerText c) | destruct (dateSpan_title c)];
    reflexivity.
Qed.

Lemma showCourse_outcomes viewMode : showsHidesOrThrows viewMode (showCourse viewMode).
Proof.
  intros odd c st r H. rewrite showCourse_eq in H. injection H as <- <-. auto.
Qed.

Lemma filterCourse_outcomes parser viewMode pmc :
  showsHidesOrThrows viewMode (filterCourse parser viewMode pmc).
Proof.
  intros odd c st r H. rewrite filterCourse_eq in H.
  destruct (courseLabel viewMode c) as [label|e].
  - destruct (test shapeRegex label).
    + destruct (parser label) as [info|e].
      * destruct (selected info pmc).
        -- rewrite showCourse_eq in H. injection H as <- <-. auto.
        -- injection H as <- <-. auto.
      * injection H as <- <-. eauto.
    + rewrite showCourse_eq in H. injection H as <- <-. auto.
  - injection H as <- <-. eauto.
Qed.

Lemma showCourse_stable viewMode : stable (showCourse viewMode).
Proof.
  intros odd c st r H. rewrite showCourse_eq in H. injection H as <- <-.
  cbn [course]. rewrite showCourse_eq, shownEntry_idem. reflexivity.
Qed.

Lemma filterCourse_stable parser viewMode pmc :
  stable (filterCourse parser viewMode pmc).
Proof.
  intros odd c st r H. rewrite filterCourse_eq in H. rewrite filterCourse_eq.
  assert (Hl : forall c', labelFields c' = labelFields c ->
               courseLabel viewMode c' = courseLabel viewMode c)
    by (intros; now apply courseLabel_fields).
  assert (He : entered viewMode (entered viewMode c) = entered viewMode c)
    by (destruct viewMode; reflexivity).
  destruct (courseLabel viewMode c) as [label|e] eqn:El.
  - destruct (test shapeRegex label) eqn:Es.
    + destruct (parser label) as [info|e] eqn:Ep.
      * destruct (selected info pmc) eqn:Esel.
        -- rewrite showCourse_eq in H. injection H as <- <-. cbn [course].
           rewrite Hl by (destruct viewMode; reflexivity).
           rewrite Es, Ep, Esel, showCourse_eq, shownEntry_idem. reflexivity.
        -- injection H as <- <-. cbn [course].
           rewrite Hl by reflexivity. rewrite Es, Ep, Esel. reflexivity.
      * injection H as <- <-. cbn [course].
        rewrite Hl by (destruct viewMode; reflexivity).
        rewrite Es, Ep, He. reflexivity.
    + rewrite showCourse_eq in H. injection H as <- <-. cbn [course].
      rewrite Hl by (destruct viewMode; reflexivity).
      rewrite Es, showCourse_eq, shownEntry_idem. reflexivity.
  - injection H as <- <-. cbn [course].
    rewrite Hl by (destruct viewMode; reflexivity). rewrite He. reflexivity.
Qed.

(** Every pass is a [forEach] of one of the two callbacks, from the odd
    state. *)
Lemma filterEntries_callback lang moduleCode viewMode :
  exists cb,
    showsHidesOrThrows viewMode cb /\ stable cb
    /\ forall courses,
         filterEntries lang moduleCode viewMode courses = forEach cb true courses.
Proof.
  destruct (streq moduleCode (js "all")) eqn:E.
  - apply streq_eq in E. subst. exists (showCourse viewMode).
    split; [apply showCourse_outcomes|].
    split; [apply showCourse_stable | intros; apply filterEntries_all].
  - eexists. split; [apply filterCourse_outcomes|].
    split; [apply filterCourse_stable|].
    intros. apply filterEntries_concrete, E.
Qed.

(** A relation that holds between an entry and itself and between an
    entry and what the callback makes of it holds between the entries
    before and after a pass, whatever its outcome. *)
Lemma forEach_Forall2 (cb : M unit) (Rel : HTMLElement -> HTMLElement -> Prop) :
  (forall c, Rel c c) ->
  (forall odd c st r, cb (CbState odd c) = (st, r) -> Rel c (course st)) ->
  forall cs odd cs' odd' r,
    forEach cb odd cs = (cs', odd', r) -> Forall2 Rel cs cs'.
Proof.
  intros Hrefl Hcb. induction cs as [|c cs IH]; intros odd cs' odd' r H.
  - injection H as <- _ _. constructor.
  - cbn [forEach] in H. destruct (cb (CbState odd c)) as [st [v|e]] eqn:Hc.
    + destruct (forEach cb (isOddRow st) cs) as [[done o1] r1] eqn:Hrest.
      injection H as <- _ _. constructor.
      * apply (Hcb _ _ _ _ Hc).
      * apply (IH _ _ _ _ Hrest).
    + injection H as <- _ _. constructor.
      * apply (Hcb _ _ _ _ Hc).
      * clear - Hrefl. induction cs; constructor; auto.
Qed.

Lemma forEach_stable (cb : M unit) (Hcb : stable cb) (cs : list HTMLElement) :
  forall odd cs' odd' r,
    forEach cb odd cs = (cs', odd', r) -> forEach cb odd cs' = (cs', odd', r).
Proof.
  induction cs as [|c cs IH]; intros odd cs' odd' r H.
  - injection H as <- <- <-. reflexivity.
  - cbn [forEach] in H. destruct (cb (CbState odd c)) as [st [v|e]] eqn:Hc.
    + destruct (forEach cb (isOddRow st) cs) as [[done o1] r1] eqn:Hrest.
      injection H as <- <- <-. cbn [forEach].
      rewrite (Hcb _ _ _ _ Hc), (IH _ _ _ _ Hrest). reflexivity.
    + injection H as <- <- <-. cbn [forEach].
      rewrite (Hcb _ _ _ _ Hc). reflexivity.
Qed.

Lemma filterEntries_stable lang moduleCode viewMode courses courses' odd' r :
  filterEntries lang moduleCode viewMode courses = (courses', odd', r) ->
  filterEntries lang moduleCode viewMode courses' = (courses', odd', r).
Proof.
  destruct (filterEntries_callback lang moduleCode viewMode)
    as (cb & _ & Hst & E).
  rewrite !E. apply forEach_stable, Hst.
Qed.

Lemma filterEntries_length lang moduleCode viewMode courses courses' odd' r :
  filterEntries lang moduleCode viewMode courses = (courses', odd', r) ->
  List.length courses' = List.length courses.
Proof.
  destruct (filterEntries_callback lang moduleCode viewMode)
    as (cb & _ & _ & E).
  rewrite E. intros H. symmetry.
  apply (Forall2_length
           (forEach_Forall2 cb (fun _ _ => True) (fun _ => I)
              (fun _ _ _ _ _ => I) _ _ _ _ _ H)).
Qed.

Lemma filterEntries_nil lang moduleCode viewMode :
  filterEntries lang moduleCode viewMode [] = ([], true, Normal tt).
Proof.
  unfold filterEntries. destruct (negb _); reflexivity.
Qed.

Lemma skipn_length_app {A} (l : list A) (x : A) :
  skipn (List.length l) (l ++ [x]) = [x].
Proof. induction l; simpl; auto. Qed.

(** X1. Applying the same filter again changes nothing: [applyFilter]
    run on the document it produced gives that document and the same
    outcome, also when the first run ended in a [throw]. *)
Theorem applyFilter_idempotent lang moduleCode doc :
  applyFilter lang moduleCode (fst (applyFilter lang moduleCode doc))
  = applyFilter lang moduleCode doc.
Proof.
  unfold applyFilter.
  destruct (coursesListContainer doc) as [children|] eqn:El.
  - destruct (filterEntries lang moduleCode list_view (tl children))
      as [[cs' o] r] eqn:E.
    cbn [fst coursesListContainer coursesThumbnailContainer].
    destruct children as [|h rows].
    + cbn [tl] in E. rewrite filterEntries_nil in E. injection E as <- <- <-.
      cbn [firstn app tl]. rewrite filterEntries_nil. reflexivity.
    + cbn [tl firstn app] in *.
      rewrite (filterEntries_stable _ _ _ _ _ _ _ E). reflexivity.
  - destruct (coursesThumbnailContainer doc) as [children|] eqn:Et.
    + assert (Hcases : children = []
                       \/ exists front lst, children = front ++ [lst]).
      { destruct children as [|c0 rest]; [auto|right].
        assert (Hc : c0 :: rest <> []) by discriminate.
        destruct (exists_last Hc) as (front & lst & Heq). eauto. }
      destruct Hcases as [-> | (front & lst & ->)].
      * cbn [removelast]. rewrite filterEntries_nil.
        cbn [fst coursesListContainer coursesThumbnailContainer
             List.length skipn app removelast].
        rewrite filterEntries_nil. reflexivity.
      * rewrite removelast_last.
        destruct (filterEntries lang moduleCode thumbnail_view front)
          as [[cs' o] r] eqn:E.
        cbn [fst coursesListContainer coursesThumbnailContainer].
        rewrite !skipn_length_app, removelast_last.
        rewrite (filterEntries_stable _ _ _ _ _ _ _ E).
        rewrite skipn_length_app. reflexivity.
    + cbn [fst]. rewrite El, Et. reflexivity.
Qed.


Lemma exclusive_striped c : exclusive c -> striped c.
Proof.
  unfold exclusive, hasRowClass, striped. intros [[H _] | [H _]]; auto.
Qed.

Lemma outcome_exclusive viewMode cb (Hcb : showsHidesOrThrows viewMode cb)
    odd c st r :
  cb (CbState odd c) = (st, r) -> exclusive c -> exclusive (course st).
Proof.
  intros H Hex.
  destruct (Hcb _ _ _ _ H) as [[-> _] | [[-> _] | [-> _]]]; cbn [course].
  - destruct viewMode; exact Hex.
  - destruct viewMode; [|exact Hex].
    pose proof (stripe_hasRowClass odd c (exclusive_striped c Hex)) as Hrow.
    destruct odd; [left | right]; exact Hrow.
  - exact Hex.
Qed.

Lemma Forall2_Forall_impl {A} (P : A -> Prop) (l l' : list A) :
  Forall2 (fun a a' => P a -> P a') l l' -> Forall P l -> Forall P l'.
Proof.
  induction 1; intros HP; inversion HP; subst; constructor; auto.
Qed.


(** X3. [applyFilter] leaves alone everything but the entries: the
    header row of the list container stays first and as it was, an empty
    container stays empty, the thumbnail container is not touched when
    the list container exists, and in thumbnail layout the last node of
    the container stays last and as it was.  The number of entries does
    not change. *)
Theorem applyFilter_frame lang moduleCode doc :
  (coursesListContainer doc <> None ->
   coursesThumbnailContainer (fst (applyFilter lang moduleCode doc))
   = coursesThumbnailContainer doc)
  /\ (forall header rows,
        coursesListContainer doc = Some (header :: rows) ->
        exists rows',
          coursesListContainer (fst (applyFilter lang moduleCode doc))
          = Some (header :: rows')
          /\ List.length rows' = List.length rows)
  /\ (coursesListContainer doc = Some [] ->
      fst (applyFilter lang moduleCode doc) = doc)
  /\ (forall cards lst,
        coursesListContainer doc = None ->
        coursesThumbnailContainer doc = Some (cards ++ [lst]) ->
        exists cards',
          fst (applyFilter lang moduleCode doc)
          = {| coursesListContainer := None;
               coursesThumbnailContainer := Some (cards' ++ [lst]) |}
          /\ List.length cards' = List.length cards).
Proof.
  unfold applyFilter. repeat split.
  - intros Hl. destruct (coursesListContainer doc) as [children|];
      [|contradiction].
    destruct (filterEntries _ _ _ _) as [[cs' o] r]. reflexivity.
  - intros header rows ->. cbn [tl firstn app].
    destruct (filterEntries _ _ _ rows) as [[cs' o] r] eqn:E.
    exists cs'. split; [reflexivity|].
    apply (filterEntries_length _ _ _ _ _ _ _ E).
  - intros Hl. rewrite Hl. cbn [tl]. rewrite filterEntries_nil.
    destruct doc. cbn in Hl. subst. reflexivity.
  - intros cards lst -> ->. rewrite removelast_last.
    destruct (filterEntries _ _ _ cards) as [[cs' o] r] eqn:E.
    exists cs'. cbn [fst]. rewrite skipn_length_app.
    split; [reflexivity|].
    apply (filterEntries_length _ _ _ _ _ _ _ E).
Qed.

Lemma applyFilter_frame_witness :
  exists rows',
    coursesListContainer
      (fst (applyFilter (js "en") (js "autumn-a") (listDocument sampleRows)))
    = Some (headerRow :: rows')
    /\ List.length rows' = List.length sampleRows.
Proof.
  apply (proj1 (proj2 (applyFilter_frame (js "en") (js "autumn-a")
                         (listDocument sampleRows)))
           headerRow sampleRows eq_refl).
Defined.

Lemma forEach_flag_thumbnail cb (Hcb : showsHidesOrThrows thumbnail_view cb)
    (cs : list HTMLElement) :
  forall odd cs' odd' r, forEach cb odd cs = (cs', odd', r) -> odd' = odd.
Proof.
  induction cs as [|c cs IH]; intros odd cs' odd' r H.
  - injection H as _ <- _. reflexivity.
  - cbn [forEach] in H. destruct (cb (CbState odd c)) as [st [v|e]] eqn:Hc.
    + destruct (forEach cb (isOddRow st) cs) as [[done o1] r1] eqn:Hrest.
      injection H as _ <- _. rewrite (IH _ _ _ _ Hrest).
      destruct (Hcb _ _ _ _ Hc) as [[-> _] | [[-> _] | [-> _]]]; reflexivity.
    + injection H as _ <- _.
      destruct (Hcb _ _ _ _ Hc) as [[-> _] | [[-> _] | [-> _]]]; reflexivity.
Qed.

(** X4. In thumbnail layout a pass changes displays only: no class list
    is changed and the striping flag is still in the odd state at the
    end, whatever the selector, the language and the outcome. *)
Theorem thumbnail_pass_keeps_classes lang moduleCode courses :
  snd (fst (filterEntries lang moduleCode thumbnail_view courses)) = true
  /\ Forall2 (fun c c' => classList c' = classList c)
             courses
             (fst (fst (filterEntries lang moduleCode thumbnail_view courses))).
Proof.
  destruct (filterEntries_callback lang moduleCode thumbnail_view)
    as (cb & Hout & _ & E).
  rewrite E. destruct (forEach cb true courses) as [[cs' o] r] eqn:H.
  cbn [fst snd]. split.
  - apply (forEach_flag_thumbnail cb Hout _ _ _ _ _ H).
  - refine (forEach_Forall2 cb _ (fun _ => eq_refl) _ _ _ _ _ _ H).
    intros odd c st r0 Hc.
    destruct (Hout _ _ _ _ Hc) as [[-> _] | [[-> _] | [-> _]]]; reflexivity.
Qed.

(** X6. A pass keeps the two striping classes mutually exclusive: when
    every entry carries exactly one of them before the pass, every entry
    carries exactly one of them after it, in both layouts and whatever
    the outcome. *)
Theorem pass_keeps_classes_exclusive lang moduleCode viewMode courses :
  Forall exclusive courses ->
  Forall exclusive (fst (fst (filterEntries lang moduleCode viewMode courses))).
Proof.
  destruct (filterEntries_callback lang moduleCode viewMode)
    as (cb & Hout & _ & E).
  rewrite E. destruct (forEach cb true courses) as [[cs' o] r] eqn:H.
  cbn [fst]. apply Forall2_Forall_impl.
  apply (forEach_Forall2 cb _ (fun _ H => H)
           (outcome_exclusive viewMode cb Hout) _ _ _ _ _ H).
Qed.

Lemma pass_keeps_classes_exclusive_witness :
  Forall exclusive
    (fst (fst (filterEntries (js "ja") (js "spring-b") list_view sampleRows))).
Proof.
  apply pass_keeps_classes_exclusive.
  repeat constructor; (left; split; reflexivity) || (right; split; reflexivity).
Defined.

Lemma visible_rows_alternate_from cb (Hcb : showOrHide cb)
    (cs : list HTMLElement) :
  forall odd cs' odd',
    forEach cb odd cs = (cs', odd', Normal tt) ->
    Forall striped cs ->
    forall k c',
      nth_error (filter (isShown list_view) cs') k = Some c' ->
      hasRowClass (xorb odd (Nat.odd k)) c'.
Proof.
  induction cs as [|c cs IH]; intros odd cs' odd' H Hs k c' Hk.
  - injection H as <- _. destruct k; discriminate.
  - cbn [forEach] in H. destruct (cb (CbState odd c)) as [st [[]|e]] eqn:Hc;
      [|discriminate].
    destruct (forEach cb (isOddRow st) cs) as [[done o1] r1] eqn:Hrest.
    injection H as <- _ ->. inversion Hs as [|? ? Hsc Hscs]; subst.
    cbn [filter] in Hk.
    destruct (Hcb _ _ _ Hc) as [-> | ->]; cbn [course isOddRow] in *.
    + rewrite isShown_shownEntry in Hk. destruct k as [|k]; cbn in Hk.
      * injection Hk as <-. rewrite xorb_false_r.
        apply stripe_hasRowClass, Hsc.
      * pose proof (IH _ _ _ Hrest Hscs _ _ Hk) as Hrow.
        rewrite Nat.odd_succ, <- Nat.negb_odd.
        destruct odd, (Nat.odd k); exact Hrow.
    + rewrite isShown_hiddenEntry in Hk. apply (IH _ _ _ Hrest Hscs _ _ Hk).
Qed.

(** X5. After a completed pass in list layout the rows left visible are
    striped among themselves: when the rows carried one of the two
    classes, the [k]-th visible row, counted from 0 in document order and
    skipping the hidden rows, carries the odd class iff [k] is even. *)
Theorem visible_rows_alternate lang moduleCode courses courses' odd' :
  filterEntries lang moduleCode list_view courses = (courses', odd', Normal tt) ->
  Forall striped courses ->
  forall k c',
    nth_error (filter (isShown list_view) courses') k = Some c' ->
    hasRowClass (oddAt k) c'.
Proof.
  intros H Hs k c' Hk.
  destruct (filterEntries_showOrHide lang moduleCode courses) as (cb & Hcb & E).
  rewrite E in H.
  pose proof (visible_rows_alternate_from cb Hcb _ _ _ _ H Hs _ _ Hk) as Hrow.
  rewrite xorb_true_l, Nat.negb_odd in Hrow. exact Hrow.
Qed.

Lemma visible_rows_alternate_witness :
  hasRowClass (oddAt 1)
    (shownEntry list_view false (listRow "none" "row1" "Spring A Fri. 3")).
Proof.
  apply (visible_rows_alternate (js "en") (js "spring-a") sampleRows
           _ _ eq_refl).
  - repeat constructor; (left; reflexivity) || (right; reflexivity).
  - reflexivity.
Defined.

Lemma outcome_striped viewMode cb (Hcb : showsHidesOrThrows viewMode cb)
    odd c st r :
  cb (CbState odd c) = (st, r) -> striped c -> striped (course st).
Proof.
  intros H Hs.
  destruct (Hcb _ _ _ _ H) as [[-> _] | [[-> _] | [-> _]]]; cbn [course].
  - destruct viewMode; exact Hs.
  - destruct viewMode; [|exact Hs].
    apply exclusive_striped.
    pose proof (stripe_hasRowClass odd c Hs) as Hrow.
    destruct odd; [left | right]; exact Hrow.
  - exact Hs.
Qed.

(** X7. Selecting ["all"] undoes any earlier selection: after any pass
    in list layout, whatever its selector, language and outcome, a pass
    of ["all"] completes and leaves every entry shown, and rows that
    carried one of the two classes before the first pass end with
    alternating classes from the odd class on. *)
Theorem all_after_any_pass lang moduleCode lang' courses :
  Forall striped courses ->
  exists final,
    filterEntries lang' (js "all") list_view
      (fst (fst (filterEntries lang moduleCode list_view courses)))
    = (final, Nat.even (List.length courses), Normal tt)
    /\ List.length final = List.length courses
    /\ forall i c',
         nth_error final i = Some c' ->
         isShown list_view c' = true /\ hasRowClass (oddAt i) c'.
Proof.
  intros Hs.
  destruct (filterEntries_callback lang moduleCode list_view)
    as (cb & Hout & _ & E).
  rewrite E. destruct (forEach cb true courses) as [[mid o] r] eqn:H.
  cbn [fst].
  assert (Hmid : Forall striped mid).
  { apply (Forall2_Forall_impl striped courses); [|exact Hs].
    apply (forEach_Forall2 cb _ (fun _ H => H)
             (outcome_striped list_view cb Hout) _ _ _ _ _ H). }
  assert (Hlen : List.length mid = List.length courses).
  { symmetry.
    apply (Forall2_length
             (forEach_Forall2 cb (fun _ _ => True) (fun _ => I)
                (fun _ _ _ _ _ => I) _ _ _ _ _ H)). }
  rewrite filterEntries_all.
  destruct (forEach_showCourse_list mid true) as (final & Hrun & Hnth).
  rewrite xorb_true_l, Nat.negb_odd, Hlen in Hrun.
  exists final. split; [exact Hrun|].
  assert (Hlen' : List.length final = List.length mid).
  { symmetry.
    apply (Forall2_length
             (forEach_Forall2 _ (fun _ _ => True) (fun _ => I)
                (fun _ _ _ _ _ => I) _ _ _ _ _ Hrun)). }
  split; [congruence|].
  intros i c' Hi.
  destruct (nth_error mid i) as [c|] eqn:Hc.
  - rewrite (Hnth _ _ Hc), xorb_true_l, Nat.negb_odd in Hi.
    assert (Hc' : c' = shownEntry list_view (Nat.even i) c) by congruence.
    subst c'. split; [apply isShown_shownEntry|].
    apply stripe_hasRowClass.
    apply (proj1 (Forall_forall striped mid) Hmid), (nth_error_In _ _ Hc).
  - apply nth_error_None in Hc.
    assert (Hlt : (i < List.length final)%nat)
      by (apply nth_error_Some; congruence).
    lia.
Qed.

Lemma all_after_any_pass_witness :
  exists final,
    filterEntries (js "ja") (js "all") list_view
      (fst (fst (filterEntries (js "fr") (js "spring-a") list_view sampleRows)))
    = (final, Nat.even (List.length sampleRows), Normal tt)
    /\ List.length final = List.length sampleRows
    /\ forall i c',
         nth_error final i = Some c' ->
         isShown list_view c' = true /\ hasRowClass (oddAt i) c'.
Proof.
  apply all_after_any_pass.
  repeat constructor; (left; reflexivity) || (right; reflexivity).
Defined.

(* ------------------------------------------------------------------ *)
(** ** Further properties of the parser *)

(** The class [[abc]] under the [i] flag holds the three letters in both
    cases, and their lower-case forms are the three segment codes. *)
Lemma segment_letter (u : unit16) :
  oneOf_i (js "abc") u = true -> In [lowerUnit u] segmentCodes.
Proof.
  change (js "abc") with [97; 98; 99].
  change segmentCodes with [[97]; [98]; [99]].
  unfold oneOf_i, canonicalize, lowerUnit. cbn [existsb].
  change (upperUnit 97) with 65. change (upperUnit 98) with 66.
  change (upperUnit 99) with 67. unfold upperUnit. intros H.
  assert (Hu : u = 97 \/ u = 98 \/ u = 99 \/ u = 65 \/ u = 66 \/ u = 67).
  { destruct ((97 <=? u) && (u <=? 122)) eqn:E.
    - apply andb_true_iff in E as [E1 E2]. apply N.leb_le in E1, E2.
      rewrite orb_false_r in H.
      apply orb_true_iff in H as [H|H]; [|apply orb_true_iff in H as [H|H]];
        apply N.eqb_eq in H; lia.
    - rewrite orb_false_r in H.
      apply orb_true_iff in H as [H|H]; [|apply orb_true_iff in H as [H|H]];
        apply N.eqb_eq in H; subst; tauto. }
  destruct Hu as [-> | [-> | [-> | [-> | [-> | ->]]]]]; cbn; tauto.
Qed.

Lemma segments_of_run (run : jsstring) :
  forallb (oneOf_i (js "abc")) run = true ->
  Forall (fun m => In m segmentCodes) (map toLowerCase (splitUnits run)).
Proof.
  induction run as [|u run IH]; cbn [forallb map splitUnits]; intros H.
  - constructor.
  - apply andb_true_iff in H as [Hu Hrun]. constructor.
    + apply segment_letter, Hu.
    + apply IH, Hrun.
Qed.

(** What the parser answers under the two languages it knows. *)
Lemma parse_supported lang label :
  supported lang = true ->
  parseCourseInfoString lang label = Normal None
  \/ exists info,
       parseCourseInfoString lang label = Normal (Some info)
       /\ CourseInfo.module info <> []
       /\ Forall (fun m => In m segmentCodes) (CourseInfo.module info)
       /\ Season.spring (CourseInfo.season info)
          && Season.autumn (CourseInfo.season info) = false.
Proof.
  unfold supported. intros H. apply orb_true_iff in H as [H|H];
    apply streq_eq in H; subst lang;
    unfold parseCourseInfoString, test, smatch.
  - change (streq (js "ja") (js "ja")) with true. cbv iota.
    destruct (exec courseInfoRegex_ja label) as [m|] eqn:Hm; [|auto].
    apply ja_match in Hm as (c & run & tail & -> & Hc & Hne & Hrun & Hg1 & Hg2).
    rewrite Hg1, Hg2. right. eexists. split; [reflexivity|].
    cbn [CourseInfo.module CourseInfo.season courseInfoOf
         Season.spring Season.autumn].
    split; [destruct run; [contradiction | discriminate]|].
    split; [apply segments_of_run, Hrun|].
    apply season_glyph in Hc as [-> | ->]; reflexivity.
  - change (streq (js "en") (js "ja")) with false.
    change (streq (js "en") (js "en")) with true. cbv iota.
    destruct (exec courseInfoRegex_en label) as [m|] eqn:Hm; [|auto].
    apply en_match in Hm
      as (word & sp & run & tail & -> & _ & _ & Hne & Hrun & Hg1 & Hg2).
    rewrite Hg1, Hg2. right. eexists. split; [reflexivity|].
    cbn [CourseInfo.module CourseInfo.season courseInfoOf
         Season.spring Season.autumn].
    split; [destruct run; [contradiction | discriminate]|].
    split; [apply segments_of_run, Hrun|].
    destruct (streq word (js "Spring")) eqn:E; [|reflexivity].
    apply streq_eq in E. subst. reflexivity.
Qed.

(** X8. Under ["ja"] and ["en"] the parser never throws.  It answers
    "no match" or a result that has at least one segment, whose segments
    are all among ["a"], ["b"], ["c"] in lower case, and that has at most
    one of the two season flags set. *)
Theorem parser_result_well_formed lang label :
  supported lang = true ->
  parseCourseInfoString lang label = Normal None
  \/ exists info,
       parseCourseInfoString lang label = Normal (Some info)
       /\ CourseInfo.module info <> []
       /\ Forall (fun m => In m segmentCodes) (CourseInfo.module info)
       /\ Season.spring (CourseInfo.season info)
          && Season.autumn (CourseInfo.season info) = false.
Proof. apply parse_supported. Qed.

Lemma parser_result_well_formed_witness :
  parseCourseInfoString (js "en") (js "autumn cAb Wed. 3") = Normal None
  \/ exists info,
       parseCourseInfoString (js "en") (js "autumn cAb Wed. 3")
       = Normal (Some info)
       /\ CourseInfo.module info <> []
       /\ Forall (fun m => In m segmentCodes) (CourseInfo.module info)
       /\ Season.spring (CourseInfo.season info)
          && Season.autumn (CourseInfo.season info) = false.
Proof.
  apply (parser_result_well_formed (js "en") (js "autumn cAb Wed. 3") eq_refl).
Defined.

Lemma courseLabel_readable viewMode c :
  viewMode = thumbnail_view \/ hasThirdCell c = true ->
  exists label, courseLabel viewMode c = Normal label.
Proof.
  unfold courseLabel, readCourseInfoString, hasThirdCell. cbn [course].
  intros [-> | H].
  - destruct (dateSpan_title c); cbn; eauto.
  - destruct viewMode.
    + destruct (children2_innerText c); [cbn; eauto | discriminate].
    + destruct (dateSpan_title c); cbn; eauto.
Qed.

Lemma forEach_filterCourse_normal lang viewMode pmc (cs : list HTMLElement) :
  supported lang = true ->
  viewMode = thumbnail_view \/ forallb hasThirdCell cs = true ->
  forall odd,
    exists cs' odd',
      forEach (filterCourse (parseCourseInfoString lang) viewMode pmc) odd cs
      = (cs', odd', Normal tt).
Proof.
  intros Hlang. induction cs as [|c cs IH]; intros Hread odd;
    cbn [forEach]; [eauto|].
  assert (Hc : viewMode = thumbnail_view \/ hasThirdCell c = true).
  { destruct Hread as [H|H]; [auto|]. cbn [forallb] in H.
    apply andb_true_iff in H. tauto. }
  assert (Hcs : viewMode = thumbnail_view \/ forallb hasThirdCell cs = true).
  { destruct Hread as [H|H]; [auto|]. cbn [forallb] in H.
    apply andb_true_iff in H. tauto. }
  destruct (courseLabel_readable _ _ Hc) as [label Hlabel].
  rewrite filterCourse_eq, Hlabel.
  assert (Hstep : exists st,
             (if test shapeRegex label
              then match parseCourseInfoString lang label with
                   | Normal courseInfo =>
                       if selected courseInfo pmc
                       then showCourse viewMode (CbState odd c)
                       else (CbState odd (hiddenEntry c), Normal tt)
                   | Throw e => (CbState odd (entered viewMode c), Throw e)
                   end
              else showCourse viewMode (CbState odd c))
             = (st, Normal tt)).
  { rewrite showCourse_eq. destruct (test shapeRegex label); [|eauto].
    destruct (parse_supported lang label Hlang) as [-> | (info & -> & _)];
      destruct (selected _ pmc); eauto. }
  destruct Hstep as [st ->].
  destruct (IH Hcs (isOddRow st)) as (cs' & odd' & ->). eauto.
Qed.

(** X9. Under ["ja"] and ["en"] a pass completes without a [throw] in
    thumbnail layout always, and in list layout when every row has a
    third cell. *)
Theorem supported_pass_completes lang moduleCode viewMode courses :
  supported lang = true ->
  viewMode = thumbnail_view \/ forallb hasThirdCell courses = true ->
  exists courses' odd',
    filterEntries lang moduleCode viewMode courses = (courses', odd', Normal tt).
Proof.
  intros Hlang Hread. destruct (streq moduleCode (js "all")) eqn:E.
  - apply streq_eq in E. subst. rewrite filterEntries_all.
    apply forEach_showCourse_normal.
  - rewrite filterEntries_concrete by assumption.
    apply forEach_filterCourse_normal; assumption.
Qed.

Lemma supported_pass_completes_witness :
  exists courses' odd',
    filterEntries (js "ja") (js "autumn-c") list_view sampleRows
    = (courses', odd', Normal tt).
Proof.
  apply supported_pass_completes; [reflexivity | right; reflexivity].
Defined.

(** X10. In list layout, under ["ja"] and ["en"] and a concrete
    selector, a row without a third cell ends the pass with a
    [TypeError]: the rows before it have been filtered as in a pass over
    them alone, the display of that row has been reset to ["table-row"],
    and the rows after it are as they were. *)
Theorem row_without_third_cell_throws lang moduleCode pre c post :
  supported lang = true ->
  streq moduleCode (js "all") = false ->
  forallb hasThirdCell pre = true ->
  children2_innerText c = None ->
  exists pre' odd,
    filterEntries lang moduleCode list_view pre = (pre', odd, Normal tt)
    /\ filterEntries lang moduleCode list_view (pre ++ c :: post)
       = (pre' ++ set_display (js "table-row") c :: post, odd, Throw TypeError).
Proof.
  intros Hlang Hall Hpre Hc.
  rewrite !filterEntries_concrete by assumption.
  destruct (forEach_filterCourse_normal lang list_view (decoded moduleCode)
              pre Hlang (or_intror Hpre) true) as (pre' & odd & Hrun).
  exists pre', odd. split; [exact Hrun|].
  rewrite forEach_app, Hrun. cbn [forEach].
  rewrite filterCourse_eq. unfold courseLabel, readCourseInfoString.
  cbn [course snd]. rewrite Hc. reflexivity.
Qed.

Lemma row_without_third_cell_throws_witness :
  exists pre' odd,
    filterEntries (js "en") (js "spring-a") list_view sampleRows
    = (pre', odd, Normal tt)
    /\ filterEntries (js "en") (js "spring-a") list_view
         (sampleRows ++ card "none" "Spring A Mon. 1" :: sampleRows)
       = (pre' ++ set_display (js "table-row") (card "none" "Spring A Mon. 1")
               :: sampleRows,
          odd, Throw TypeError).
Proof.
  apply row_without_third_cell_throws; reflexivity.
Defined.

(* ------------------------------------------------------------------ *)
(** ** Which entries a selector shows *)

Lemma decoded_concrete sn seg :
  In sn seasonCodes -> In seg segmentCodes ->
  decoded (sn ++ 45 :: seg) = ParsedModuleCode.Build (Some sn) (Some seg).
Proof.
  cbv [seasonCodes segmentCodes In].
  intros [<- | [<- | []]] [<- | [<- | [<- | []]]]; reflexivity.
Qed.

Lemma module_has_segment (run seg : jsstring) :
  moduleIncludes (map toLowerCase (splitUnits run)) (Some seg)
  = runHasSegment run seg.
Proof.
  unfold moduleIncludes, runHasSegment, splitUnits.
  induction run as [|u run IH]; cbn [map existsb]; [reflexivity|].
  rewrite IH. reflexivity.
Qed.

(** X11. Under ["ja"], an entry whose label passes the shape test and
    matches the pattern with season glyph [g] and segment run [run] is
    shown by the selector [sn-seg] exactly when [sn] is the season of
    the glyph and the letter [seg] occurs in the run in either case;
    otherwise it is hidden. *)
Theorem ja_entry_shown_iff viewMode c label m g run sn seg odd :
  courseLabel viewMode c = Normal label ->
  test shapeRegex label = true ->
  exec courseInfoRegex_ja label = Some m ->
  group 1 m = Some [g] ->
  group 2 m = Some run ->
  In sn seasonCodes ->
  In seg segmentCodes ->
  filterCourse (parseCourseInfoString (js "ja")) viewMode
               (decoded (sn ++ 45 :: seg)) (CbState odd c)
  = if streq sn (glyphSeason g) && runHasSegment run seg
    then showCourse viewMode (CbState odd c)
    else (CbState odd (hiddenEntry c), Normal tt).
Proof.
  intros Hlabel Hshape Hm Hg1 Hg2 Hsn Hseg.
  assert (Hg : g = 26149 \/ g = 31179).
  { apply ja_match in Hm as (c0 & run0 & tail & _ & Hc0 & _ & _ & Hg1' & _).
    rewrite Hg1 in Hg1'. injection Hg1' as ->. apply season_glyph, Hc0. }
  assert (Hparse : parseCourseInfoString (js "ja") label
                   = Normal (Some (courseInfoOf (includes [g] (js "春"))
                                                (includes [g] (js "秋")) run))).
  { unfold parseCourseInfoString, test, smatch.
    change (streq (js "ja") (js "ja")) with true. cbv iota.
    rewrite Hm, Hg1, Hg2. reflexivity. }
  rewrite filterCourse_eq, Hlabel, Hshape, Hparse.
  rewrite (decoded_concrete _ _ Hsn Hseg).
  unfold selected, courseInfoOf.
  cbn [CourseInfo.season CourseInfo.module
       ParsedModuleCode.season ParsedModuleCode.module].
  rewrite module_has_segment.
  assert (Hseason :
            seasonLookup (Season.Build (includes [g] (js "春"))
                                       (includes [g] (js "秋"))) (Some sn)
            = streq sn (glyphSeason g)).
  { cbv [seasonCodes In] in Hsn.
    destruct Hg as [-> | ->]; destruct Hsn as [<- | [<- | []]]; reflexivity. }
  rewrite Hseason. reflexivity.
Qed.

Lemma ja_entry_shown_iff_witness :
  filterCourse (parseCourseInfoString (js "ja")) list_view
               (decoded (js "spring" ++ 45 :: js "b"))
               (CbState true (listRow "none" "row0" "春AB 月1,2"))
  = if streq (js "spring") (glyphSeason 26149)
       && runHasSegment (js "AB") (js "b")
    then showCourse list_view (CbState true (listRow "none" "row0" "春AB 月1,2"))
    else (CbState true (hiddenEntry (listRow "none" "row0" "春AB 月1,2")),
          Normal tt).
Proof.
  apply (ja_entry_shown_iff list_view (listRow "none" "row0" "春AB 月1,2")
           (js "春AB 月1,2") [(2%nat, js "AB"); (1%nat, js "春")]
           26149 (js "AB") (js "spring") (js "b") true
           eq_refl eq_refl eq_refl eq_refl eq_refl
           (or_introl eq_refl) (or_intror (or_introl eq_refl))).
Defined.

(** X12. Under ["en"], an entry whose label passes the shape test and
    matches the pattern with season word [word] and segment run [run] is
    shown by the selector [sn-seg] exactly when the word is, letter for
    letter, ["Spring"] or ["Autumn"] and names the season [sn], and the
    letter [seg] occurs in the run in either case; otherwise it is
    hidden. *)
Theorem en_entry_shown_iff viewMode c label m word run sn seg odd :
  courseLabel viewMode c = Normal label ->
  test shapeRegex label = true ->
  exec courseInfoRegex_en label = Some m ->
  group 1 m = Some word ->
  group 2 m = Some run ->
  In sn seasonCodes ->
  In seg segmentCodes ->
  filterCourse (parseCourseInfoString (js "en")) viewMode
               (decoded (sn ++ 45 :: seg)) (CbState odd c)
  = if match wordSeason word with
       | Some s => streq sn s
       | None => false
       end && runHasSegment run seg
    then showCourse viewMode (CbState odd c)
    else (CbState odd (hiddenEntry c), Normal tt).
Proof.
  intros Hlabel Hshape Hm Hg1 Hg2 Hsn Hseg.
  assert (Hparse : parseCourseInfoString (js "en") label
                   = Normal (Some (courseInfoOf (streq word (js "Spring"))
                                                (streq word (js "Autumn")) run))).
  { unfold parseCourseInfoString, test, smatch.
    change (streq (js "en") (js "ja")) with false.
    change (streq (js "en") (js "en")) with true. cbv iota.
    rewrite Hm, Hg1, Hg2. reflexivity. }
  rewrite filterCourse_eq, Hlabel, Hshape, Hparse.
  rewrite (decoded_concrete _ _ Hsn Hseg).
  unfold selected, courseInfoOf.
  cbn [CourseInfo.season CourseInfo.module
       ParsedModuleCode.season ParsedModuleCode.module].
  rewrite module_has_segment.
  assert (Hseason :
            seasonLookup (Season.Build (streq word (js "Spring"))
                                       (streq word (js "Autumn"))) (Some sn)
            = match wordSeason word with
              | Some s => streq sn s
              | None => false
              end).
  { unfold wordSeason. cbv [seasonCodes In] in Hsn.
    destruct (streq word (js "Spring")) eqn:E1.
    - apply streq_eq in E1. subst word.
      destruct Hsn as [<- | [<- | []]]; reflexivity.
    - destruct (streq word (js "Autumn")) eqn:E2;
        destruct Hsn as [<- | [<- | []]]; reflexivity. }
  rewrite Hseason. reflexivity.
Qed.

Lemma en_entry_shown_iff_witness :
  filterCourse (parseCourseInfoString (js "en")) thumbnail_view
               (decoded (js "autumn" ++ 45 :: js "c"))
               (CbState true (card "none" "Autumn bC Thu. 4"))
  = if match wordSeason (js "Autumn") with
       | Some s => streq (js "autumn") s
       | None => false
       end && runHasSegment (js "bC") (js "c")
    then showCourse thumbnail_view (CbState true (card "none" "Autumn bC Thu. 4"))
    else (CbState true (hiddenEntry (card "none" "Autumn bC Thu. 4")),
          Normal tt).
Proof.
  apply (en_entry_shown_iff thumbnail_view (card "none" "Autumn bC Thu. 4")
           (js "Autumn bC Thu. 4") [(2%nat, js "bC"); (1%nat, js "Autumn")]
           (js "Autumn") (js "bC") (js "autumn") (js "c") true
           eq_refl eq_refl eq_refl eq_refl eq_refl
           (or_intror (or_introl eq_refl))
           (or_intror (or_intror (or_introl eq_refl)))).
Defined.

(* ------------------------------------------------------------------ *)
(** ** The selector *)

Lemma supported_cases lang :
  supported lang = true -> lang = js "ja" \/ lang = js "en".
Proof.
  unfold supported. intros H.
  apply orb_true_iff in H as [H|H]; apply streq_eq in H; auto.
Qed.

(** X13. Under ["ja"] and ["en"] [createModuleSelector] completes.  The
    selector is named ["select"] and has one option for each of the
    seven module codes, in their order, with the code as value; only the
    option of ["all"] carries the attribute [selected]; no two options
    have the same text; and when the container exists the selector
    becomes its first child node, before the nodes that were there. *)
Theorem selector_lists_every_code {A : Type} lang
    (selectorsContainer : option (list (HTMLSelectElement + A))) :
  supported lang = true ->
  exists moduleSelector,
    createModuleSelector lang selectorsContainer
    = (option_map (cons (inl moduleSelector)) selectorsContainer,
       Normal moduleSelector)
    /\ select_name moduleSelector = js "select"
    /\ map option_value (select_options moduleSelector) = moduleCodes
    /\ map option_selected (select_options moduleSelector)
       = Some (js "true") :: repeat None 6
    /\ NoDup (map option_innerText (select_options moduleSelector)).
Proof.
  intros H. unfold createModuleSelector.
  destruct (supported_cases lang H) as [-> | ->].
  - remember (appendOptions (js "ja") moduleCodes []) as built eqn:E.
    vm_compute in E. subst built. eexists.
    split; [destruct selectorsContainer; reflexivity|].
    repeat (split; [reflexivity|]).
    cbn [map select_options option_innerText].
    repeat (constructor; [cbn [In]; intuition discriminate|]). constructor.
  - remember (appendOptions (js "en") moduleCodes []) as built eqn:E.
    vm_compute in E. subst built. eexists.
    split; [destruct selectorsContainer; reflexivity|].
    repeat (split; [reflexivity|]).
    cbn [map select_options option_innerText].
    repeat (constructor; [cbn [In]; intuition discriminate|]). constructor.
Qed.

Lemma selector_lists_every_code_witness :
  exists moduleSelector,
    createModuleSelector (js "en") (Some [inr 7%nat; inr 9%nat])
    = (option_map (cons (inl moduleSelector)) (Some [inr 7%nat; inr 9%nat]),
       Normal moduleSelector)
    /\ select_name moduleSelector = js "select"
    /\ map option_value (select_options moduleSelector) = moduleCodes
    /\ map option_selected (select_options moduleSelector)
       = Some (js "true") :: repeat None 6
    /\ NoDup (map option_innerText (select_options moduleSelector)).
Proof.
  apply (selector_lists_every_code (js "en") (Some [inr 7%nat; inr 9%nat])
           eq_refl).
Defined.

(** X14. Under any language other than ["ja"] and ["en"]
    [createModuleSelector] ends in a [TypeError] while it builds its
    first option: the text of ["all"] is not returned by the first [if],
    ["all"] is decoded, and [toUpperCase] is called on its undefined
    segment.  No selector is inserted: the container is as it was. *)
Theorem selector_fails_without_language {A : Type} lang
    (selectorsContainer : option (list (HTMLSelectElement + A))) :
  supported lang = false ->
  moduleCodeToText lang (js "all") = Throw TypeError
  /\ createModuleSelector lang selectorsContainer
     = (selectorsContainer, Throw TypeError).
Proof.
  unfold supported. intros H. apply orb_false_iff in H as [Hja Hen].
  assert (Htext : moduleCodeToText lang (js "all") = Throw TypeError).
  { unfold moduleCodeToText.
    change (streq (js "all") (js "all")) with true. cbv iota.
    rewrite Hja, Hen. reflexivity. }
  split; [exact Htext|].
  unfold createModuleSelector, moduleCodes. cbn [appendOptions].
  unfold createOption. rewrite Htext. reflexivity.
Qed.

Lemma selector_fails_without_language_witness :
  moduleCodeToText (js "fr") (js "all") = Throw TypeError
  /\ createModuleSelector (js "fr") (Some [inr 7%nat])
     = (Some [inr 7%nat], Throw TypeError).
Proof.
  apply (selector_fails_without_language (js "fr") (Some [inr 7%nat]) eq_refl).
Defined.

(** X15. The option texts and the parser.  Under ["ja"] the text of the
    option of a concrete code, read as a label, parses to a result that
    the code itself selects and that no other concrete code selects.
    Under ["en"] the text has no white space between the season word and
    the letter, and the parser answers "no match" on it. *)
Theorem option_text_read_as_label sn seg :
  In sn seasonCodes ->
  In seg segmentCodes ->
  (exists text info,
     moduleCodeToText (js "ja") (sn ++ 45 :: seg) = Normal text
     /\ parseCourseInfoString (js "ja") text = Normal (Some info)
     /\ forall sn' seg',
          In sn' seasonCodes ->
          In seg' segmentCodes ->
          selected (Some info) (decoded (sn' ++ 45 :: seg')) = true
          <-> sn' = sn /\ seg' = seg)
  /\ (exists text,
        moduleCodeToText (js "en") (sn ++ 45 :: seg) = Normal text
        /\ parseCourseInfoString (js "en") text = Normal None).
Proof.
  cbv [seasonCodes segmentCodes In].
  intros [<- | [<- | []]] [<- | [<- | [<- | []]]];
    (split;
     [ eexists _, _; split; [reflexivity|]; split; [reflexivity|];
       intros sn' seg' [<- | [<- | []]] [<- | [<- | [<- | []]]];
       (vm_compute; split;
        [ intros He; try discriminate He; split; reflexivity
        | intros [H1 H2]; try discriminate H1; try discriminate H2;
          reflexivity ])
     | eexists; split; reflexivity ]).
Qed.

Lemma option_text_read_as_label_witness :
  exists text,
    moduleCodeToText (js "en") (js "autumn" ++ 45 :: js "b") = Normal text
    /\ parseCourseInfoString (js "en") text = Normal None.
Proof.
  apply (proj2 (option_text_read_as_label (js "autumn") (js "b")
                  (or_intror (or_introl eq_refl))
                  (or_intror (or_introl eq_refl)))).
Defined.

(* ------------------------------------------------------------------ *)
(** ** The shape test *)

(** X16. The test [/^.+\s.+$/] of [applyFilter] accepts exactly the
    labels made of a non-empty part without line terminator, one
    white-space code unit, and another non-empty part without line
    terminator.  In particular a label of fewer than three code units
    fails the test, so that its entry is shown without being parsed. *)
Theorem shape_test_characterised label :
  (test shapeRegex label = true <-> shapeSplit label)
  /\ ((List.length label < 3)%nat -> test shapeRegex label = false).
Proof.
  split; [split; [apply shape_sound | apply shape_complete]|].
  intros Hlen. destruct (test shapeRegex label) eqn:E; [|reflexivity].
  apply shape_sound in E as (x & w & y & -> & Hx & Hy & _).
  rewrite length_app in Hlen. cbn [List.length] in Hlen.
  destruct x; [contradiction|]. destruct y; [contradiction|].
  cbn [List.length] in Hlen. lia.
Qed.

Lemma shape_test_characterised_witness :
  test shapeRegex (js "A ") = false.
Proof.
  apply (proj2 (shape_test_characterised (js "A "))). cbn. lia.
Defined.

(** X17. An entry without label text is always shown: a card of the
    thumbnail layout that has no date element reads as the empty label,
    and a card or a row whose label text is empty fails the shape test,
    so that under every selector, parser and language the callback does
    what [showCourse] does. *)
Theorem entry_without_label_shown viewMode c :
  (viewMode = thumbnail_view /\ dateSpan_title c = None)
  \/ courseLabel viewMode c = Normal [] ->
  courseLabel viewMode c = Normal []
  /\ forall parser parsedModuleCode odd,
       filterCourse parser viewMode parsedModuleCode (CbState odd c)
       = showCourse viewMode (CbState odd c).
Proof.
  intros H.
  assert (Hlabel : courseLabel viewMode c = Normal []).
  { destruct H as [[-> Hd] | H]; [|exact H].
    unfold courseLabel, readCourseInfoString. cbn [course]. rewrite Hd.
    reflexivity. }
  split; [exact Hlabel|].
  intros. rewrite filterCourse_eq, Hlabel. reflexivity.
Qed.

Lemma entry_without_label_shown_witness :
  courseLabel thumbnail_view bareCard = Normal []
  /\ forall parser parsedModuleCode odd,
       filterCourse parser thumbnail_view parsedModuleCode (CbState odd bareCard)
       = showCourse thumbnail_view (CbState odd bareCard).
Proof.
  apply entry_without_label_shown. left. split; reflexivity.
Defined.

(** X18. Both patterns are anchored at the start of the label.  Under
    ["ja"] a label that does not start with one of the two season glyphs,
    and under ["en"] a label that does not start with the letter S or A
    in either case, is "no match" whatever follows; so is the empty
    label. *)
Theorem parser_is_anchored (c : unit16) (more : jsstring) :
  (oneOf_i (js "春秋") c = false ->
   parseCourseInfoString (js "ja") (c :: more) = Normal None)
  /\ (oneOf_i (js "SA") c = false ->
      parseCourseInfoString (js "en") (c :: more) = Normal None)
  /\ parseCourseInfoString (js "ja") [] = Normal None
  /\ parseCourseInfoString (js "en") [] = Normal None.
Proof.
  split; [|split; [|split; reflexivity]].
  - intros Hc. unfold parseCourseInfoString, test, smatch.
    change (streq (js "ja") (js "ja")) with true. cbv iota.
    unfold courseInfoRegex_ja. rewrite exec_anchored. unfold attempt.
    cbn [rmatch rest before caps]. rewrite Hc. reflexivity.
  - intros Hc. unfold parseCourseInfoString, test, smatch.
    change (streq (js "en") (js "ja")) with false.
    change (streq (js "en") (js "en")) with true. cbv iota.
    unfold courseInfoRegex_en. rewrite exec_anchored. unfold attempt.
    change (js "Spring") with [83; 112; 114; 105; 110; 103].
    change (js "Autumn") with [65; 117; 116; 117; 109; 110].
    change (js "SA") with [83; 65] in Hc.
    unfold oneOf_i in Hc. cbn [existsb] in Hc.
    apply orb_false_iff in Hc as [HS HA].
    apply orb_false_iff in HA as [HA _].
    cbn [rmatch lit_i rest before caps]. unfold oneOf_i. cbn [existsb].
    rewrite HS, HA. reflexivity.
Qed.

Lemma parser_is_anchored_witness :
  parseCourseInfoString (js "ja") (32 :: js "春AB 月1") = Normal None
  /\ parseCourseInfoString (js "en") (32 :: js "Spring AB Mon. 1")
     = Normal None.
Proof.
  split.
  - apply (proj1 (parser_is_anchored 32 (js "春AB 月1")) eq_refl).
  - apply (proj1 (proj2 (parser_is_anchored 32 (js "Spring AB Mon. 1")))
             eq_refl).
Defined.
